(** * Risk-scoring engine of [src/risk_map.py] (class [RiskMap])

    A shallow embedding of the scoring engine: the normaliser
    ([normalize_risk_factor]), the population density, the weighted composite
    score with its fixed-edge classification ([calculate_risk_scores]) and the
    ranking query ([get_high_risk_zips]), together with the constructor's
    weight normalisation.

    Numbers.  The Python code computes on binary64 floats held in pandas
    objects.  Here a finite float is a real ([R]) and a missing value
    (pandas' NaN) is [None].  The infinities arise in the population
    density, from a division by zero or from a quotient that leaves the
    float range ([float_overflow]), and are kept apart there ([quotient]).
    Rounding is not modelled: an arithmetic expression below stands for the
    float the code computes from the same operands.  The statements are
    therefore of three kinds only: they name the expression the code
    evaluates, or compare results ([<=] is kept by rounding, which is
    monotone), or rest on operations that are exact on floats ([x - x],
    [0 / d], [d / d], [1 - 0], adding 0).  Where a statement needs more than
    that it says so.  The one place where rounding decides the outcome, the
    standard deviation of a constant series, is evaluated on binary64
    itself ([nanops], [z_scores]). *)

From Stdlib Require Import Floats.
From Stdlib Require Import Reals Lra List String ZArith Lia Bool.
From Stdlib Require Import Permutation Sorted.
Import ListNotations.
Local Open Scope R_scope.

(** ** Exceptions *)

Inductive exn : Type :=
| ValueError (msg : string)
| KeyError (key : string)
| AttributeError (msg : string).

(** ** pandas series of floats *)

(** One entry of a float column: a real, or NaN. *)
Definition cell : Type := option R.

Definition Series : Type := list cell.

(** A series without NaN, seen as a series. *)
Definition of_values (l : list R) : Series := map Some l.

Module pd.

(** Entries that are not NaN, in order ([Series.dropna]). *)
Fixpoint dropna (s : Series) : list R :=
  match s with
  | [] => []
  | Some x :: s' => x :: dropna s'
  | None :: s' => dropna s'
  end.

Fixpoint list_min (l : list R) : cell :=
  match l with
  | [] => None
  | x :: l' => match list_min l' with
               | None => Some x
               | Some m => Some (Rmin x m)
               end
  end.

Fixpoint list_max (l : list R) : cell :=
  match l with
  | [] => None
  | x :: l' => match list_max l' with
               | None => Some x
               | Some m => Some (Rmax x m)
               end
  end.

Definition list_sum (l : list R) : R := fold_right Rplus 0 l.

(** [Series.min()], [Series.max()]: NaN entries are skipped; the result is
    NaN when nothing is left. *)
Definition min (s : Series) : cell := list_min (dropna s).
Definition max (s : Series) : cell := list_max (dropna s).

(** [Series.mean()]: NaN entries are skipped.  The float mean is this
    quotient up to rounding. *)
Definition mean (s : Series) : cell :=
  match dropna s with
  | [] => None
  | l => Some (list_sum l / INR (List.length l))
  end.

(** [Series.std()]: sample standard deviation (one degree of freedom
    removed) of the entries that are not NaN; NaN with fewer than two of
    them.  Here it is 0 on every constant series; the float deviation need
    not be, the float mean being rounded ([nanops.nanstd] below), so that
    no statement of this file rests on which branch the guard
    [std_val > 0] takes. *)
Definition std (s : Series) : cell :=
  let l := dropna s in
  match l with
  | [] | [_] => None
  | _ =>
      let mu := list_sum l / INR (List.length l) in
      Some (sqrt (list_sum (map (fun x => (x - mu) * (x - mu)) l)
                  / (INR (List.length l) - 1)))
  end.

(** Arithmetic of a float with NaN. *)
Definition sub (a b : cell) : cell :=
  match a, b with
  | Some x, Some y => Some (x - y)
  | _, _ => None
  end.

(** [a > 0] on floats: false on NaN. *)
Definition gt0 (a : cell) : bool :=
  match a with
  | Some x => if Rlt_dec 0 x then true else false
  | None => false
  end.

(** [a / d], used under the guard [d > 0] only. *)
Definition div (a d : cell) : cell :=
  match a, d with
  | Some x, Some y => Some (x / y)
  | _, _ => None
  end.

(** [series - v] and [series / v] for a scalar [v]. *)
Definition sub_scalar (s : Series) (v : cell) : Series :=
  map (fun c => sub c v) s.
Definition div_scalar (s : Series) (v : cell) : Series :=
  map (fun c => div c v) s.

(** [1 / (1 + np.exp(-series))].  The float logistic reaches 0 and 1 for
    large z-scores; only its order and the closed interval [0,1] are used
    below. *)
Definition sigmoid (s : Series) : Series :=
  map (option_map (fun z => 1 / (1 + exp (- z)))) s.

(** [pd.Series(v, index=series.index)]. *)
Definition full (v : R) (s : Series) : Series :=
  map (fun _ => Some v) s.

(** [series.fillna(v)]: the result holds no NaN. *)
Definition fillna (v : R) (s : Series) : list R :=
  map (fun c => match c with Some x => x | None => v end) s.

End pd.

(** ** [RiskMap.normalize_risk_factor] *)

Definition normalize_risk_factor (series : Series) (method : string)
  : exn + list R :=
  if String.eqb method "min_max"%string then
    let min_val := pd.min series in
    let max_val := pd.max series in
    let normalized :=
      if pd.gt0 (pd.sub max_val min_val)
      then pd.div_scalar (pd.sub_scalar series min_val) (pd.sub max_val min_val)
      else pd.full 0 series in
    inr (pd.fillna 0 normalized)
  else if String.eqb method "z_score"%string then
    let mean_val := pd.mean series in
    let std_val := pd.std series in
    let normalized :=
      if pd.gt0 std_val
      then pd.sigmoid (pd.div_scalar (pd.sub_scalar series mean_val) std_val)
      else pd.full 0.5 series in
    inr (pd.fillna 0 normalized)
  else inl (ValueError ("Unknown normalization method: " ++ method)%string).

(** ** The statistics of the z-score branch on binary64

    [Series.mean()] and [Series.std()] as pandas computes them on a column
    of floats without NaN ([nanops.nanmean]; [nanops.nanvar] with one
    degree of freedom removed, then the square root): the sum over the
    count, and the root of the summed squared deviations from that mean
    over the count less one.  The sums are taken from the left; on the
    series evaluated below, whose entries are equal, every order of
    summation gives the same floats. *)

Module nanops.

Definition nansum (values : list float) : float :=
  fold_left PrimFloat.add values 0%float.

Definition count (values : list float) : float :=
  PrimFloat.of_uint63 (Uint63.of_Z (Z.of_nat (List.length values))).

Definition nanmean (values : list float) : float :=
  (nansum values / count values)%float.

Definition nanstd (values : list float) : float :=
  let avg := nanmean values in
  let sqr := map (fun x => ((avg - x) * (avg - x))%float) values in
  PrimFloat.sqrt (nansum sqr / (count values - 1))%float.

End nanops.

(** The z-scores that [normalize_risk_factor] hands to the logistic under
    ['z_score'], when the guard [std_val > 0] lets it: [None] stands for
    the other branch, the series of 0.5. *)
Definition z_scores (series : list float) : option (list float) :=
  let mean_val := nanops.nanmean series in
  let std_val := nanops.nanstd series in
  if PrimFloat.ltb 0%float std_val
  then Some (map (fun x => ((x - mean_val) / std_val)%float) series)
  else None.

(** The float Python reads for [0.1]. *)
Definition tenth : float := 0x1.999999999999ap-4%float.

(** ** The same method on series objects

    pandas series are objects passed by reference.  To speak about what a
    call does to its argument, the body of [normalize_risk_factor] is read
    once more over a store of series objects: a reduction ([min], [mean],
    ...) reads an object, and every arithmetic operation, [pd.Series(...)]
    and [fillna] builds a new object and leaves its operands alone. *)

Definition ref : Type := nat.
Definition store : Type := list Series.

Definition deref (h : store) (r : ref) : option Series := nth_error h r.

(** A computation over the store: stuck ([None]) on a reference to no
    object, which no Python program holds; otherwise a new store and either
    an exception or a value. *)
Definition M (A : Type) : Type := store -> option (store * (exn + A)).

Definition ret {A} (a : A) : M A := fun h => Some (h, inr a).
Definition raise {A} (e : exn) : M A := fun h => Some (h, inl e).
Definition bind {A B} (m : M A) (k : A -> M B) : M B :=
  fun h => match m h with
           | None => None
           | Some (h', inl e) => Some (h', inl e)
           | Some (h', inr a) => k a h'
           end.

Notation "x <- m ;; k" := (bind m (fun x => k))
  (at level 61, m at next level, right associativity).

(** Read an object and compute from it. *)
Definition read {A} (f : Series -> A) (r : ref) : M A :=
  fun h => match deref h r with
           | Some s => Some (h, inr (f s))
           | None => None
           end.

(** Build a new object from an existing one. *)
Definition build (f : Series -> Series) (r : ref) : M ref :=
  fun h => match deref h r with
           | Some s => Some (h ++ [f s], inr (List.length h))
           | None => None
           end.

Definition normalize_risk_factor_call (series : ref) (method : string) : M ref :=
  if String.eqb method "min_max"%string then
    min_val <- read pd.min series ;;
    max_val <- read pd.max series ;;
    normalized <-
      (if pd.gt0 (pd.sub max_val min_val)
       then
         shifted <- build (fun s => pd.sub_scalar s min_val) series ;;
         build (fun s => pd.div_scalar s (pd.sub max_val min_val)) shifted
       else build (pd.full 0) series) ;;
    build (fun s => of_values (pd.fillna 0 s)) normalized
  else if String.eqb method "z_score"%string then
    mean_val <- read pd.mean series ;;
    std_val <- read pd.std series ;;
    normalized <-
      (if pd.gt0 std_val
       then
         shifted <- build (fun s => pd.sub_scalar s mean_val) series ;;
         scaled <- build (fun s => pd.div_scalar s std_val) shifted ;;
         build pd.sigmoid scaled
       else build (pd.full 0.5) series) ;;
    build (fun s => of_values (pd.fillna 0 s)) normalized
  else raise (ValueError ("Unknown normalization method: " ++ method)%string).

(** ** The area table *)

(** A geometry is opaque to the engine; the one thing asked of it is its
    planar area, in square metres, once reprojected to EPSG:3857
    ([to_crs('EPSG:3857').geometry.area], computed by geopandas). *)
Record Geometry : Type := { mercator_area : R }.

(** A data frame of float columns over the row positions [0 .. nrows-1];
    columns are kept in insertion order.

    [geometry] is the geometry column of a GeoDataFrame whose coordinate
    reference system is set, so that [to_crs] reprojects it.  A frame that
    answers to [.geometry] but cannot be reprojected has [geometry = None]
    and carries in [to_crs_error] the exception that [to_crs] raises on it:
    [ValueError] for a GeoDataFrame whose geometry has no CRS (what
    [load_zip_code_data] builds from a CSV file with a WKT column),
    [AttributeError] for a plain DataFrame with a column named geometry.
    Every other frame has neither. *)
Record DataFrame : Type := {
  nrows : nat;
  columns : list (string * Series);
  geometry : option (list Geometry);
  to_crs_error : option exn
}.

(** [df[col]]: [None] stands for the [KeyError]. *)
Fixpoint lookup {A} (col : string) (l : list (string * A)) : option A :=
  match l with
  | [] => None
  | (k, v) :: l' => if String.eqb col k then Some v else lookup col l'
  end.

Definition getitem (df : DataFrame) (col : string) : option Series :=
  lookup col (columns df).

(** [col in df.columns]. *)
Definition has_column (df : DataFrame) (col : string) : bool :=
  existsb (fun kv => String.eqb col (fst kv)) (columns df).

(** [df[col] = s] for a column the frame does not have yet. *)
Definition add_column (df : DataFrame) (col : string) (s : Series) : DataFrame :=
  {| nrows := nrows df;
     columns := columns df ++ [(col, s)];
     geometry := geometry df;
     to_crs_error := to_crs_error df |}.

(** ** Result table

    The result frame has a fixed set of columns, so it is kept by rows.  The
    raw column of an optional factor exists only when the factor does
    ([None] otherwise); [risk_category] is [None] where [pd.cut] finds no
    bin (NaN). *)

Inductive Category : Type := Low | Medium | High | VeryHigh.

Record ResultRow : Type := {
  row : nat;
  population_density : R;
  population_density_norm : R;
  bird_density : option R;
  bird_density_norm : R;
  water_proximity : option R;
  water_proximity_norm : R;
  healthcare_capacity : option R;
  healthcare_capacity_norm : R;
  vulnerability_index : option R;
  vulnerability_index_norm : R;
  risk_score : R;
  risk_category : option Category
}.

Definition Results : Type := list ResultRow.

(** ** The engine *)

(** A dict, by its items in insertion order. *)
Definition dict : Type := list (string * R).

(** [d.get(key, 0)]. *)
Definition get (d : dict) (key : string) : R :=
  match lookup key d with
  | Some v => v
  | None => 0
  end.

Definition values (d : dict) : list R := map snd d.

(** Python's [sum]: a left fold from 0. *)
Definition sum (l : list R) : R := fold_left Rplus l 0.

Record RiskMap : Type := {
  zip_code_data : option DataFrame;
  risk_scores : option Results;
  risk_map_gdf : option (DataFrame * Results);
  risk_weights : dict
}.

Definition default_weights : dict :=
  [ ("population_density", 0.3);
    ("bird_density", 0.4);
    ("water_proximity", 0.15);
    ("healthcare_capacity", 0.1);
    ("vulnerability_index", 0.05) ]%string.

(** [RiskMap.__init__].  [risk_weights if risk_weights else default_weights]:
    [None] and the empty dict are both falsy.  Weights are floats, and their
    sum is taken inside the float range: a sum that overflows is infinite in
    the code, and every weight is then stored as 0. *)
Definition init (zip_code_data : option DataFrame) (risk_weights : option dict)
  : RiskMap :=
  let weights :=
    match risk_weights with
    | None | Some [] => default_weights
    | Some w => w
    end in
  let total_weight := sum (values weights) in
  {| zip_code_data := zip_code_data;
     risk_scores := None;
     risk_map_gdf := None;
     risk_weights :=
       if Rlt_dec 0 total_weight
       then map (fun kv => (fst kv, snd kv / total_weight)) weights
       else weights |}.

(** *** [RiskMap.calculate_population_density] *)

(** The least magnitude that binary64 division rounds to an infinity:
    [2^1024 - 2^970], half a unit in the last place above the largest
    finite float (rounding to nearest, ties to even). *)
Definition float_overflow : R := IZR (2 ^ 1024 - 2 ^ 970).

(** A float quotient [x / y]: division by zero gives an infinity, or NaN
    for [0 / 0]; so does a quotient that leaves the float range; NaN
    operands give NaN. *)
Inductive quotient : Type :=
| Finite (q : R)
| Infinite
| NaN.

Definition truediv (x y : cell) : quotient :=
  match x, y with
  | Some a, Some b =>
      if Req_dec_T b 0
      then (if Req_dec_T a 0 then NaN else Infinite)
      else if Rle_dec float_overflow (Rabs (a / b)) then Infinite
      else Finite (a / b)
  | _, _ => NaN
  end.

(** [p / a] on two columns of one frame, row by row. *)
Fixpoint series_truediv (p a : Series) : list quotient :=
  match p, a with
  | x :: p', y :: a' => truediv x y :: series_truediv p' a'
  | _, _ => []
  end.

(** [.replace([np.inf, -np.inf], v)]. *)
Definition replace_inf (v : R) (q : quotient) : cell :=
  match q with
  | Finite x => Some x
  | Infinite => Some v
  | NaN => None
  end.

Definition with_zip_code_data (self : RiskMap) (df : DataFrame) : RiskMap :=
  {| zip_code_data := Some df;
     risk_scores := risk_scores self;
     risk_map_gdf := risk_map_gdf self;
     risk_weights := risk_weights self |}.

Definition calculate_population_density
    (self : RiskMap) (population_col area_col : string)
  : RiskMap * (exn + list R) :=
  match zip_code_data self with
  | None =>
      (self, inl (ValueError
                    "No zip code data loaded. Use load_zip_code_data() first."%string))
  | Some df =>
      let resolved : exn + RiskMap * DataFrame :=
        if negb (has_column df area_col) then
          match geometry df, to_crs_error df with
          | Some gdf, _ =>
              (* self.zip_code_data[area_col] = gdf.geometry.area / 1e6 *)
              let df' := add_column df area_col
                           (of_values (map (fun g => mercator_area g / 1e6) gdf)) in
              inr (with_zip_code_data self df', df')
          | None, Some e =>
              (* self.zip_code_data.to_crs('EPSG:3857') raises *)
              inl e
          | None, None =>
              inl (ValueError
                     ("Area column '" ++ area_col ++
                      "' not found and cannot calculate from geometry.")%string)
          end
        else inr (self, df) in
      match resolved with
      | inl e => (self, inl e)
      | inr (self, df) =>
          match getitem df population_col with
          | None => (self, inl (KeyError population_col))
          | Some population =>
              match getitem df area_col with
              | None => (self, inl (KeyError area_col))
              | Some area =>
                  let density := series_truediv population area in
                  (self, inr (pd.fillna 0 (map (replace_inf 0) density)))
              end
          end
      end
  end.

(** *** [RiskMap.calculate_risk_scores] *)

(** [pd.cut(x, bins, labels)] at one value, with pandas' defaults: bins are
    open on the left and closed on the right, and the lowest edge is not
    included; NaN ([None]) outside every bin. *)
Fixpoint cut {A} (x : R) (bins : list R) (labels : list A) : option A :=
  match bins, labels with
  | lo :: ((hi :: _) as bins'), lab :: labels' =>
      if Rlt_dec lo x
      then (if Rle_dec x hi then Some lab else cut x bins' labels')
      else cut x bins' labels'
  | _, _ => None
  end.

Definition ebind {A B} (x : exn + A) (k : A -> exn + B) : exn + B :=
  match x with
  | inl e => inl e
  | inr a => k a
  end.

Notation "'let*' x ':=' m 'in' k" := (ebind m (fun x => k))
  (at level 10, x name, m at level 100, k at level 200).

(** An optional factor: [col and col in df.columns], then
    [df[col].fillna(0)]. *)
Definition factor (df : DataFrame) (col : option string) : option (list R) :=
  match col with
  | None => None
  | Some c =>
      if negb (String.eqb c ""%string) && has_column df c
      then option_map (pd.fillna 0) (getitem df c)
      else None
  end.

(** Everything between the density and the assignment to
    [self.risk_scores]: the columns of [results], then its rows. *)
Definition score_rows
    (weights : dict) (df : DataFrame) (pop_density : list R)
    (bird_density_col water_proximity_col healthcare_col vulnerability_col
       : option string)
  : exn + Results :=
  let zeros := repeat 0 (nrows df) in
  let* pop_norm := normalize_risk_factor (of_values pop_density) "min_max" in
  let bird := factor df bird_density_col in
  let* bird_norm :=
    match bird with
    | Some b => normalize_risk_factor (of_values b) "min_max"
    | None => inr zeros
    end in
  let water_prox := factor df water_proximity_col in
  let* water_norm :=
    match water_prox with
    | Some w => normalize_risk_factor (of_values w) "min_max"
    | None => inr zeros
    end in
  let healthcare := factor df healthcare_col in
  let* health_norm :=
    match healthcare with
    | Some h =>
        let* healthcare_norm := normalize_risk_factor (of_values h) "min_max" in
        inr (map (fun x => 1 - x) healthcare_norm)
    | None => inr zeros
    end in
  let vulnerability := factor df vulnerability_col in
  let* vuln_norm :=
    match vulnerability with
    | Some v => normalize_risk_factor (of_values v) "min_max"
    | None => inr zeros
    end in
  inr (map
         (fun i =>
            let score :=
              nth i pop_norm 0 * get weights "population_density" +
              nth i bird_norm 0 * get weights "bird_density" +
              nth i water_norm 0 * get weights "water_proximity" +
              nth i health_norm 0 * get weights "healthcare_capacity" +
              nth i vuln_norm 0 * get weights "vulnerability_index" in
            {| row := i;
               population_density := nth i pop_density 0;
               population_density_norm := nth i pop_norm 0;
               bird_density := option_map (fun c => nth i c 0) bird;
               bird_density_norm := nth i bird_norm 0;
               water_proximity := option_map (fun c => nth i c 0) water_prox;
               water_proximity_norm := nth i water_norm 0;
               healthcare_capacity := option_map (fun c => nth i c 0) healthcare;
               healthcare_capacity_norm := nth i health_norm 0;
               vulnerability_index := option_map (fun c => nth i c 0) vulnerability;
               vulnerability_index_norm := nth i vuln_norm 0;
               risk_score := score;
               risk_category :=
                 cut score [0; 0.25; 0.5; 0.75; 1.0] [Low; Medium; High; VeryHigh]
            |})
         (seq 0 (nrows df))).

Definition no_data : exn :=
  ValueError "No zip code data loaded. Use load_zip_code_data() first."%string.

Definition calculate_risk_scores
    (self : RiskMap) (population_col area_col : string)
    (bird_density_col water_proximity_col healthcare_col vulnerability_col
       : option string)
  : RiskMap * (exn + Results) :=
  match zip_code_data self with
  | None => (self, inl no_data)
  | Some _ =>
      let (self, pop_density) :=
        calculate_population_density self population_col area_col in
      match pop_density, zip_code_data self with
      | inl e, _ => (self, inl e)
      | inr _, None => (self, inl no_data)   (* the table is still there *)
      | inr pop_density, Some df =>
          match score_rows (risk_weights self) df pop_density
                  bird_density_col water_proximity_col healthcare_col
                  vulnerability_col with
          | inl e => (self, inl e)
          | inr results =>
              ({| zip_code_data := Some df;
                  risk_scores := Some results;
                  risk_map_gdf := Some (df, results);
                  risk_weights := risk_weights self |},
               inr results)
          end
      end
  end.

(** The call with every column name left at its default. *)
Definition calculate_risk_scores_default (self : RiskMap)
  : RiskMap * (exn + Results) :=
  calculate_risk_scores self "population" "area_km2"
    (Some "bird_density"%string) (Some "water_proximity"%string)
    (Some "healthcare_capacity"%string) (Some "vulnerability_index"%string).

(** *** [RiskMap.get_high_risk_zips] *)

(** Rows ordered by [risk_score], largest first; rows of equal score keep
    their order.  pandas does not fix the order of ties for
    [sort_values]; the statements below do not depend on it. *)
Fixpoint insert_desc (r : ResultRow) (l : Results) : Results :=
  match l with
  | [] => [r]
  | x :: l' =>
      if Rlt_dec (risk_score r) (risk_score x)
      then x :: insert_desc r l'
      else r :: l
  end.

Definition sort_values_desc (l : Results) : Results :=
  fold_right insert_desc [] l.

(** [df.nlargest(n, 'risk_score')]: the first [n] rows in descending order
    of score, ties in order of appearance; nothing for [n <= 0]. *)
Definition nlargest (n : Z) (l : Results) : Results :=
  firstn (Z.to_nat n) (sort_values_desc l).

(** Truth value of an optional integer: [None] and [0] are falsy. *)
Definition truthy (n : option Z) : bool :=
  match n with
  | Some k => negb (Z.eqb k 0)
  | None => false
  end.

Definition Rge_bool (x y : R) : bool := if Rge_dec x y then true else false.

Definition get_high_risk_zips
    (self : RiskMap) (threshold : R) (top_n : option Z)
  : RiskMap * (exn + Results) :=
  match risk_scores self with
  | None =>
      (self, inl (ValueError
                    "Risk scores not calculated. Use calculate_risk_scores() first."%string))
  | Some scores =>
      let high_risk := filter (fun r => Rge_bool (risk_score r) threshold) scores in
      let high_risk :=
        if truthy top_n
        then nlargest (match top_n with Some k => k | None => 0%Z end) scores
        else high_risk in
      (self, inr (sort_values_desc high_risk))
  end.

(** * Vocabulary of the statements *)

(** All entries of a series that are not NaN are equal. *)
Definition zero_spread (s : Series) : Prop :=
  forall x y, In (Some x) s -> In (Some y) s -> x = y.

Definition in_unit (v : R) : Prop := 0 <= v <= 1.

Definition scale (total : R) (w : dict) : dict :=
  map (fun kv => (fst kv, snd kv / total)) w.

(** Descending order of score. *)
Definition desc (a b : ResultRow) : Prop := risk_score b <= risk_score a.

(** A result row of a table with no optional factor, given by its position
    and its score (sample data for the closed statements below). *)
Definition sample_row (i : nat) (score : R) : ResultRow :=
  {| row := i;
     population_density := 0;
     population_density_norm := score;
     bird_density := None;
     bird_density_norm := 0;
     water_proximity := None;
     water_proximity_norm := 0;
     healthcare_capacity := None;
     healthcare_capacity_norm := 0;
     vulnerability_index := None;
     vulnerability_index_norm := 0;
     risk_score := score;
     risk_category := cut score [0; 0.25; 0.5; 0.75; 1.0] [Low; Medium; High; VeryHigh]
  |}.

(** An engine holding two scored rows. *)
Definition sample_scored : RiskMap :=
  {| zip_code_data := None;
     risk_scores := Some [sample_row 0 0.8; sample_row 1 0.9];
     risk_map_gdf := None;
     risk_weights := default_weights |}.

(** A table of one area with a geometry of two square kilometres, which
    has a CRS, and no area column. *)
Definition sample_geo_table : DataFrame :=
  {| nrows := 1;
     columns := [("population"%string, [Some 1000])];
     geometry := Some [ {| mercator_area := 2e6 |} ];
     to_crs_error := None |}.

(** An engine with a cached result whose table has geometry (with a CRS) but
    neither an area column nor a population column: scoring derives the
    area, then fails on the population. *)
Definition sample_no_population : RiskMap :=
  {| zip_code_data :=
       Some {| nrows := 1;
               columns := [];
               geometry := Some [ {| mercator_area := 2e6 |} ];
               to_crs_error := None |};
     risk_scores := Some [sample_row 0 0.8; sample_row 1 0.9];
     risk_map_gdf := None;
     risk_weights := default_weights |}.

(** The min-max image of [x] between [m] and [M]; 0 without spread. *)
Definition spread_norm (m M x : R) : R :=
  if Rlt_dec 0 (M - m) then (x - m) / (M - m) else 0.

(** The column returned by the default method on a column without NaN. *)
Definition min_max (l : list R) : list R :=
  pd.fillna 0
    (if pd.gt0 (pd.sub (pd.list_max l) (pd.list_min l))
     then pd.div_scalar (pd.sub_scalar (of_values l) (pd.list_min l))
            (pd.sub (pd.list_max l) (pd.list_min l))
     else pd.full 0 (of_values l)).

(** Writing one entry of a column, by position; a position outside the
    column writes nothing. *)
Fixpoint set_nth {A} (i : nat) (v : A) (l : list A) : list A :=
  match l with
  | [] => []
  | x :: l' =>
      match i with
      | O => v :: l'
      | S i' => x :: set_nth i' v l'
      end
  end.

(** The table with entry [i] of column [col] set to [v]. *)
Definition set_cell (df : DataFrame) (col : string) (i : nat) (v : cell)
  : DataFrame :=
  {| nrows := nrows df;
     columns :=
       map (fun kv => if String.eqb col (fst kv)
                      then (fst kv, set_nth i v (snd kv))
                      else kv)
           (columns df);
     geometry := geometry df;
     to_crs_error := to_crs_error df |}.

(** Entry [i] of column [col], when there is one. *)
Definition cell_at (df : DataFrame) (col : string) (i : nat) : option cell :=
  match getitem df col with
  | Some s => nth_error s i
  | None => None
  end.

(** No area of the table is negative, be it given or derived. *)
Definition area_nonneg (df : DataFrame) (area_col : string) : Prop :=
  (forall s y, getitem df area_col = Some s -> In (Some y) s -> 0 <= y) /\
  (forall gdf g, geometry df = Some gdf -> In g gdf -> 0 <= mercator_area g).

Definition nonneg_weights (d : dict) : Prop :=
  Forall (fun kv => 0 <= snd kv) d.

(** The table as the density call leaves it; [None] when the area can not
    be resolved. *)
Definition resolve (df : DataFrame) (area_col : string) : option DataFrame :=
  if has_column df area_col then Some df
  else match geometry df with
       | Some gdf =>
           Some (add_column df area_col
                   (of_values (map (fun g => mercator_area g / 1e6) gdf)))
       | None => None
       end.

Definition density (population area : Series) : list R :=
  pd.fillna 0 (map (replace_inf 0) (series_truediv population area)).

(** The normalised column of an optional factor. *)
Definition factor_norm (df : DataFrame) (col : option string) : list R :=
  match factor df col with
  | Some f => min_max f
  | None => repeat 0 (nrows df)
  end.

Definition health_norm (df : DataFrame) (col : option string) : list R :=
  match factor df col with
  | Some f => map (fun x => 1 - x) (min_max f)
  | None => repeat 0 (nrows df)
  end.

(** The weighted sum at row [i]. *)
Definition composite (weights : dict) (pn bn wn hn vn : list R) (i : nat) : R :=
  nth i pn 0 * get weights "population_density" +
  nth i bn 0 * get weights "bird_density" +
  nth i wn 0 * get weights "water_proximity" +
  nth i hn 0 * get weights "healthcare_capacity" +
  nth i vn 0 * get weights "vulnerability_index".

(** The exception of a density call that finds neither the area column
    nor geometry it can reproject. *)
Definition area_unresolved (df : DataFrame) (area_col : string) : exn :=
  match to_crs_error df with
  | Some e => e
  | None =>
      ValueError ("Area column '" ++ area_col ++
                  "' not found and cannot calculate from geometry.")%string
  end.

Definition bins : list R := [0; 0.25; 0.5; 0.75; 1.0].

Definition labels : list Category := [Low; Medium; High; VeryHigh].

(** One entry of the density column. *)
Definition cell_density (p a : cell) : R :=
  match replace_inf 0 (truediv p a) with
  | Some x => x
  | None => 0
  end.

(** Two areas of one square kilometre each, with no optional factor. *)
Definition sample_two_areas : DataFrame :=
  {| nrows := 2;
     columns := [("population"%string, [Some 1000; Some 5000]);
                 ("area_km2"%string, [Some 1; Some 1])];
     geometry := None;
     to_crs_error := None |}.

(** Two areas with a bird density and a healthcare capacity. *)
Definition sample_table : DataFrame :=
  {| nrows := 2;
     columns := [("population"%string, [Some 1000; Some 5000]);
                 ("area_km2"%string, [Some 1; Some 2]);
                 ("bird_density"%string, [Some 10; None]);
                 ("healthcare_capacity"%string, [Some 0; Some 1])];
     geometry := None;
     to_crs_error := None |}.


(** A value inside the float range. *)
Definition in_float_range (q : R) : Prop := Rabs q < float_overflow.




(** An optional factor is not used: its column name is [None] or empty, or
    names no column of the table (nor the area column, which a call may
    add). *)
Definition absent (df : DataFrame) (area_col : string) (col : option string)
  : Prop :=
  match col with
  | None => True
  | Some c => c = ""%string \/ (has_column df c = false /\ c <> area_col)
  end.

(** Every entry of a column is [k], NaN counting as 0. *)
Definition constant_column (k : R) (col : Series) : Prop :=
  Forall (fun c => match c with Some x => x = k | None => k = 0 end) col.

(** The normalised columns of a row all lie in [0,1]. *)
Definition norms_in_unit (r : ResultRow) : Prop :=
  in_unit (population_density_norm r) /\ in_unit (bird_density_norm r) /\
  in_unit (water_proximity_norm r) /\ in_unit (healthcare_capacity_norm r) /\
  in_unit (vulnerability_index_norm r).

(** The weighted sum of a row's own normalised columns. *)
Definition weighted_sum (weights : dict) (r : ResultRow) : R :=
  population_density_norm r * get weights "population_density" +
  bird_density_norm r * get weights "bird_density" +
  water_proximity_norm r * get weights "water_proximity" +
  healthcare_capacity_norm r * get weights "healthcare_capacity" +
  vulnerability_index_norm r * get weights "vulnerability_index".

(** [RiskMap.load_zip_code_data].  Reading the file (geopandas for
    ['.geojson'] and ['.shp'], pandas otherwise, with the optional WKT
    geometry column) is the libraries' work; [read] is its outcome, the
    frame read or the exception raised.  What the method adds is the
    assignment to [self.zip_code_data], made only when the reading
    succeeds. *)
Definition load_zip_code_data (self : RiskMap) (read : exn + DataFrame)
  : RiskMap * (exn + DataFrame) :=
  match read with
  | inl e => (self, inl e)
  | inr gdf => (with_zip_code_data self gdf, inr gdf)
  end.

(** * Properties *)

(** ** Series reductions *)

Lemma dropna_In (s : Series) (x : R) : In x (pd.dropna s) <-> In (Some x) s.
Proof.
  induction s as [|[y|] s IH]; simpl.
  - tauto.
  - rewrite IH. split; intros [H|H]; auto; left; congruence.
  - rewrite IH. split; [auto | intros [H|H]; [discriminate | auto]].
Qed.

Lemma dropna_of_values (l : list R) : pd.dropna (of_values l) = l.
Proof. induction l; simpl; congruence. Qed.

Lemma list_min_None (l : list R) : pd.list_min l = None -> l = [].
Proof. destruct l; simpl; [auto | destruct (pd.list_min l); discriminate]. Qed.

Lemma list_max_None (l : list R) : pd.list_max l = None -> l = [].
Proof. destruct l; simpl; [auto | destruct (pd.list_max l); discriminate]. Qed.

Lemma list_min_le (l : list R) (m x : R) :
  pd.list_min l = Some m -> In x l -> m <= x.
Proof.
  revert m; induction l as [|y l IH]; simpl; intros m Hm Hx; [tauto|].
  destruct (pd.list_min l) as [m'|] eqn:E.
  - injection Hm as <-. destruct Hx as [->|Hx].
    + apply Rmin_l.
    + eapply Rle_trans; [apply Rmin_r | now apply IH].
  - injection Hm as <-. apply list_min_None in E; subst l.
    destruct Hx as [->|[]]; lra.
Qed.

Lemma list_max_ge (l : list R) (m x : R) :
  pd.list_max l = Some m -> In x l -> x <= m.
Proof.
  revert m; induction l as [|y l IH]; simpl; intros m Hm Hx; [tauto|].
  destruct (pd.list_max l) as [m'|] eqn:E.
  - injection Hm as <-. destruct Hx as [->|Hx].
    + apply Rmax_l.
    + eapply Rle_trans; [now apply IH | apply Rmax_r].
  - injection Hm as <-. apply list_max_None in E; subst l.
    destruct Hx as [->|[]]; lra.
Qed.

Lemma list_min_In (l : list R) (m : R) : pd.list_min l = Some m -> In m l.
Proof.
  revert m; induction l as [|y l IH]; simpl; intros m Hm; [discriminate|].
  destruct (pd.list_min l) as [m'|].
  - injection Hm as <-. unfold Rmin. destruct (Rle_dec y m'); auto.
  - injection Hm as <-. auto.
Qed.

Lemma list_max_In (l : list R) (m : R) : pd.list_max l = Some m -> In m l.
Proof.
  revert m; induction l as [|y l IH]; simpl; intros m Hm; [discriminate|].
  destruct (pd.list_max l) as [m'|].
  - injection Hm as <-. unfold Rmax. destruct (Rle_dec y m'); auto.
  - injection Hm as <-. auto.
Qed.

Lemma gt0_Some (a : cell) : pd.gt0 a = true -> exists d, a = Some d /\ 0 < d.
Proof.
  destruct a as [d|]; simpl; [|discriminate].
  destruct (Rlt_dec 0 d); [eauto | discriminate].
Qed.

Lemma sub_Some (a b : cell) (d : R) :
  pd.sub a b = Some d -> exists x y, a = Some x /\ b = Some y /\ d = x - y.
Proof.
  destruct a as [x|], b as [y|]; simpl; try discriminate.
  intros H; injection H as <-; eauto.
Qed.

Lemma fillna_full (v w : R) (s : Series) :
  pd.fillna w (pd.full v s) = repeat v (List.length s).
Proof.
  unfold pd.fillna, pd.full. induction s; simpl; congruence.
Qed.

Lemma fillna_length (v : R) (s : Series) :
  List.length (pd.fillna v s) = List.length s.
Proof. apply length_map. Qed.

Lemma list_sum_const (c : R) (l : list R) :
  (forall x, In x l -> x = c) -> pd.list_sum l = INR (List.length l) * c.
Proof.
  induction l as [|y l IH]; intros H.
  - simpl. lra.
  - change (pd.list_sum (y :: l)) with (y + pd.list_sum l).
    change (List.length (y :: l)) with (S (List.length l)).
    rewrite S_INR, IH by (intros; apply H; now right).
    rewrite (H y) by now left. lra.
Qed.

Lemma list_sum_zero (l : list R) :
  (forall x, In x l -> x = 0) -> pd.list_sum l = 0.
Proof. intros H. rewrite (list_sum_const 0) by assumption. lra. Qed.

(** ** Normalisation *)

Lemma min_max_unfold (s : Series) :
  normalize_risk_factor s "min_max" =
  inr (pd.fillna 0
         (if pd.gt0 (pd.sub (pd.max s) (pd.min s))
          then pd.div_scalar (pd.sub_scalar s (pd.min s))
                 (pd.sub (pd.max s) (pd.min s))
          else pd.full 0 s)).
Proof. reflexivity. Qed.

Lemma z_score_unfold (s : Series) :
  normalize_risk_factor s "z_score" =
  inr (pd.fillna 0
         (if pd.gt0 (pd.std s)
          then pd.sigmoid (pd.div_scalar (pd.sub_scalar s (pd.mean s)) (pd.std s))
          else pd.full 0.5 s)).
Proof. reflexivity. Qed.

Lemma repeat_in_unit (v : R) (n : nat) : in_unit v -> Forall in_unit (repeat v n).
Proof. intros H. induction n; simpl; auto. Qed.

Lemma min_max_in_unit (s : Series) (out : list R) :
  normalize_risk_factor s "min_max" = inr out -> Forall in_unit out.
Proof.
  rewrite min_max_unfold. intros H; injection H as <-.
  destruct (pd.gt0 _) eqn:G.
  - apply gt0_Some in G as (d & Hd & Hpos).
    apply sub_Some in Hd as (M & m & HM & Hm & ->).
    rewrite HM, Hm. unfold pd.fillna, pd.div_scalar, pd.sub_scalar.
    rewrite !map_map. apply Forall_forall. intros v Hv.
    apply in_map_iff in Hv as (c & <- & Hc).
    destruct c as [x|]; simpl; [|unfold in_unit; lra].
    apply dropna_In in Hc.
    pose proof (list_min_le _ _ _ Hm Hc) as Hlo.
    pose proof (list_max_ge _ _ _ HM Hc) as Hhi.
    unfold in_unit. split.
    + apply Rmult_le_pos; [lra | left; apply Rinv_0_lt_compat; lra].
    + apply Rmult_le_reg_r with (M - m); [lra|].
      unfold Rdiv. rewrite Rmult_assoc, Rinv_l by lra. lra.
  - rewrite fillna_full. apply repeat_in_unit. unfold in_unit; lra.
Qed.

Lemma sigmoid_in_unit (z : R) : in_unit (1 / (1 + exp (- z))).
Proof.
  pose proof (exp_pos (- z)) as He. unfold in_unit. split.
  - apply Rmult_le_pos; [lra | left; apply Rinv_0_lt_compat; lra].
  - apply Rmult_le_reg_r with (1 + exp (- z)); [lra|].
    unfold Rdiv. rewrite Rmult_assoc, Rinv_l by lra. lra.
Qed.

Lemma z_score_in_unit (s : Series) (out : list R) :
  normalize_risk_factor s "z_score" = inr out -> Forall in_unit out.
Proof.
  rewrite z_score_unfold. intros H; injection H as <-.
  destruct (pd.gt0 _) eqn:G.
  - apply gt0_Some in G as (d & Hd & Hpos). rewrite Hd.
    unfold pd.fillna, pd.sigmoid, pd.div_scalar, pd.sub_scalar.
    rewrite !map_map. apply Forall_forall. intros v Hv.
    apply in_map_iff in Hv as (c & <- & Hc).
    destruct (pd.sub c (pd.mean s)) as [y|]; simpl.
    + apply sigmoid_in_unit.
    + unfold in_unit; lra.
  - rewrite fillna_full. apply repeat_in_unit. unfold in_unit; lra.
Qed.

Lemma normalize_length (s : Series) (m : string) (out : list R) :
  normalize_risk_factor s m = inr out -> List.length out = List.length s.
Proof.
  unfold normalize_risk_factor.
  destruct (String.eqb m "min_max"); [|destruct (String.eqb m "z_score")];
    intros H; try discriminate; injection H as <-;
    rewrite fillna_length;
    destruct (pd.gt0 _);
    unfold pd.sigmoid, pd.div_scalar, pd.sub_scalar, pd.full;
    now rewrite ?length_map.
Qed.

(** ** The store: a call only adds objects *)

Lemma deref_app (h ext : store) (r : ref) (s : Series) :
  deref h r = Some s -> deref (h ++ ext) r = Some s.
Proof.
  unfold deref. intros H. rewrite nth_error_app1; [assumption|].
  apply nth_error_Some. congruence.
Qed.

Lemma deref_new (h : store) (s : Series) :
  deref (h ++ [s]) (List.length h) = Some s.
Proof.
  unfold deref. rewrite nth_error_app2 by lia. now rewrite Nat.sub_diag.
Qed.

Lemma deref_last (h pre : store) (s : Series) :
  deref (h ++ pre ++ [s]) (List.length (h ++ pre)) = Some s.
Proof. rewrite app_assoc. apply deref_new. Qed.

Lemma bind_read {A B} (f : Series -> A) (k : A -> M B) (r : ref) (h : store)
    (s : Series) :
  deref h r = Some s -> bind (read f r) k h = k (f s) h.
Proof. intros H. unfold bind, read. now rewrite H. Qed.

Lemma bind_build {B} (f : Series -> Series) (k : ref -> M B) (r : ref)
    (h : store) (s : Series) :
  deref h r = Some s -> bind (build f r) k h = k (List.length h) (h ++ [f s]).
Proof. intros H. unfold bind, build. now rewrite H. Qed.

Lemma build_run (f : Series -> Series) (r : ref) (h : store) (s : Series) :
  deref h r = Some s -> build f r h = Some (h ++ [f s], inr (List.length h)).
Proof. intros H. unfold build. now rewrite H. Qed.

Lemma bind_assoc {A B C} (m : M A) (k : A -> M B) (k' : B -> M C) (h : store) :
  bind (bind m k) k' h = bind m (fun a => bind (k a) k') h.
Proof.
  unfold bind. destruct (m h) as [[h' [e|a]]|]; reflexivity.
Qed.

(** What a call on an object of the store does, in terms of the method on
    values: the store grows by fresh objects [ext], and the reference
    returned holds the value computed. *)
Lemma normalize_call_agrees (h : store) (series : ref) (s : Series)
    (method : string) :
  deref h series = Some s ->
  exists ext,
    match normalize_risk_factor s method with
    | inl e => normalize_risk_factor_call series method h = Some (h ++ ext, inl e)
    | inr out =>
        exists r, normalize_risk_factor_call series method h = Some (h ++ ext, inr r)
                  /\ deref (h ++ ext) r = Some (of_values out)
    end.
Proof.
  intros H.
  unfold normalize_risk_factor, normalize_risk_factor_call.
  destruct (String.eqb method "min_max"); [|destruct (String.eqb method "z_score")].
  - rewrite (bind_read _ _ _ _ _ H), (bind_read _ _ _ _ _ H).
    destruct (pd.gt0 _).
    + rewrite bind_assoc, (bind_build _ _ _ _ _ H).
      rewrite (bind_build _ _ _ _ _ (deref_new _ _)).
      rewrite (build_run _ _ _ _ (deref_new _ _)).
      eexists [_; _; _]. eexists. split.
      * rewrite <- !app_assoc. reflexivity.
      * rewrite <- ?app_assoc. apply (deref_last h [_; _]).
    + rewrite (bind_build _ _ _ _ _ H).
      rewrite (build_run _ _ _ _ (deref_new _ _)).
      eexists [_; _]. eexists. split.
      * rewrite <- !app_assoc. reflexivity.
      * rewrite <- ?app_assoc. apply (deref_last h [_]).
  - rewrite (bind_read _ _ _ _ _ H), (bind_read _ _ _ _ _ H).
    destruct (pd.gt0 _).
    + rewrite bind_assoc, (bind_build _ _ _ _ _ H).
      rewrite bind_assoc, (bind_build _ _ _ _ _ (deref_new _ _)).
      rewrite (bind_build _ _ _ _ _ (deref_new _ _)).
      rewrite (build_run _ _ _ _ (deref_new _ _)).
      eexists [_; _; _; _]. eexists. split.
      * rewrite <- !app_assoc. reflexivity.
      * rewrite <- ?app_assoc. apply (deref_last h [_; _; _]).
    + rewrite (bind_build _ _ _ _ _ H).
      rewrite (build_run _ _ _ _ (deref_new _ _)).
      eexists [_; _]. eexists. split.
      * rewrite <- !app_assoc. reflexivity.
      * rewrite <- ?app_assoc. apply (deref_last h [_]).
  - exists []. rewrite app_nil_r. reflexivity.
Qed.

Lemma zero_spread_gt0_min_max (s : Series) :
  zero_spread s -> pd.gt0 (pd.sub (pd.max s) (pd.min s)) = false.
Proof.
  intros Hz. unfold pd.max, pd.min.
  destruct (pd.list_max (pd.dropna s)) as [M|] eqn:EM; [|reflexivity].
  destruct (pd.list_min (pd.dropna s)) as [m|] eqn:Em; [|reflexivity].
  apply list_max_In, dropna_In in EM. apply list_min_In, dropna_In in Em.
  rewrite (Hz M m EM Em). simpl.
  destruct (Rlt_dec 0 (m - m)); [lra | reflexivity].
Qed.

Lemma sigmoid_below_half (z : R) : z < 0 -> 1 / (1 + exp (- z)) < 1 / 2.
Proof.
  intros Hz. assert (Hlt : exp 0 < exp (- z)) by (apply exp_increasing; lra).
  rewrite exp_0 in Hlt. unfold Rdiv. rewrite !Rmult_1_l.
  apply Rinv_lt_contravar; nra.
Qed.

(** C5, at an input where the code departs from it: the series
    [0.1, 0.1, 0.1] under ['z_score'].  Its float mean is not 0.1 (it is
    0.10000000000000002), so its float standard deviation is positive
    (1.7e-17) where the claim has 0.  The guard [std_val > 0] passes, and
    every entry goes to the logistic with the same z-score, about -0.8165.
    The logistic of a negative number is below 0.5 (about 0.3065 here): no
    entry of the result is the 0.5 of the claim.  The ['min_max'] half of
    the claim is not affected: the largest value less the smallest is
    exactly 0 on floats ([zero_spread_gt0_min_max]). *)
Theorem constant_series_z_score_not_half :
  PrimFloat.eqb (nanops.nanmean [tenth; tenth; tenth]) tenth = false /\
  PrimFloat.ltb 0%float (nanops.nanstd [tenth; tenth; tenth]) = true /\
  (exists z,
     z_scores [tenth; tenth; tenth] = Some [z; z; z] /\
     PrimFloat.ltb (-1)%float z = true /\ PrimFloat.ltb z (-0.5)%float = true) /\
  (forall z v : R, z < 0 -> pd.sigmoid [Some z] = [Some v] -> v < 1 / 2).
Proof.
  split; [vm_compute; reflexivity|].
  split; [vm_compute; reflexivity|].
  split.
  - eexists. split; [vm_compute; reflexivity|].
    split; vm_compute; reflexivity.
  - intros z v Hz Hv. injection Hv as <-. now apply sigmoid_below_half.
Qed.

(** C4.  Under both methods every value returned lies in [0,1], one per
    entry of the argument; and the call, run on a series object of the
    store, leaves that object (and every other object already there) as it
    was. *)
Theorem normalize_risk_factor_unit_interval
    (h : store) (series : ref) (s : Series) (method : string) :
  deref h series = Some s ->
  method = "min_max"%string \/ method = "z_score"%string ->
  exists h' r out,
    normalize_risk_factor_call series method h = Some (h', inr r) /\
    deref h' r = Some (of_values out) /\
    normalize_risk_factor s method = inr out /\
    List.length out = List.length s /\
    Forall in_unit out /\
    deref h' series = Some s /\
    (forall r0 s0, deref h r0 = Some s0 -> deref h' r0 = Some s0).
Proof.
  intros H Hm.
  destruct (normalize_call_agrees h series s method H) as (ext & Hcall).
  assert (Hout : exists out, normalize_risk_factor s method = inr out)
    by (destruct Hm as [-> | ->]; eexists; reflexivity).
  destruct Hout as (out & Hout). rewrite Hout in Hcall.
  destruct Hcall as (r & Hrun & Hr).
  exists (h ++ ext), r, out. repeat split; try assumption.
  - now apply normalize_length in Hout.
  - destruct Hm as [-> | ->];
      [now apply min_max_in_unit with s | now apply z_score_in_unit with s].
  - now apply deref_app.
  - intros r0 s0. apply deref_app.
Qed.

Lemma normalize_risk_factor_unit_interval_witness :
  exists h' r out,
    normalize_risk_factor_call 0%nat "z_score" [[Some 2; None; Some 5]]
      = Some (h', inr r) /\
    deref h' r = Some (of_values out) /\
    normalize_risk_factor [Some 2; None; Some 5] "z_score" = inr out /\
    List.length out = 3%nat /\
    Forall in_unit out /\
    deref h' 0%nat = Some [Some 2; None; Some 5] /\
    (forall r0 s0, deref [[Some 2; None; Some 5]] r0 = Some s0 ->
                   deref h' r0 = Some s0).
Proof.
  apply (normalize_risk_factor_unit_interval
           [[Some 2; None; Some 5]] 0%nat [Some 2; None; Some 5] "z_score").
  - reflexivity.
  - right; reflexivity.
Defined.

(** ** The float range *)

Lemma float_overflow_large : 1e300 < float_overflow.
Proof.
  unfold float_overflow.
  match goal with
  | |- _ < IZR ?z => let v := eval vm_compute in z in change z with v
  end.
  lra.
Qed.

Lemma in_float_range_small (q : R) : -1e300 <= q <= 1e300 -> in_float_range q.
Proof.
  intros H. pose proof float_overflow_large. unfold in_float_range, Rabs.
  destruct (Rcase_abs q); lra.
Qed.

Lemma div_nonneg (n d : R) : 0 <= n -> 0 < d -> 0 <= n / d.
Proof.
  intros Hn Hd. apply Rmult_le_pos; [assumption|].
  left. now apply Rinv_0_lt_compat.
Qed.

(** ** Weights *)

Lemma sum_from (l : list R) (a : R) : fold_left Rplus l a = a + pd.list_sum l.
Proof.
  revert a; induction l as [|x l IH]; intros a; simpl.
  - lra.
  - rewrite IH. unfold pd.list_sum. lra.
Qed.

Lemma sum_list_sum (l : list R) : sum l = pd.list_sum l.
Proof. unfold sum. rewrite sum_from. lra. Qed.

Lemma sum_scale (total : R) (w : dict) :
  sum (values (scale total w)) = sum (values w) / total.
Proof.
  rewrite !sum_list_sum. unfold values, scale.
  induction w as [|[k v] w IH]; simpl.
  - lra.
  - rewrite IH. lra.
Qed.

Lemma get_scale (total : R) (w : dict) (key : string) :
  get (scale total w) key = get w key / total.
Proof.
  unfold get, scale.
  induction w as [|[k v] w IH]; simpl.
  - lra.
  - destruct (String.eqb key k); [reflexivity | exact IH].
Qed.

Lemma init_weights_positive (d : option DataFrame) (w : dict) :
  0 < sum (values w) ->
  risk_weights (init d (Some w)) = scale (sum (values w)) w.
Proof.
  intros Hpos. destruct w as [|kv w].
  - unfold sum in Hpos; simpl in Hpos. lra.
  - unfold init, risk_weights.
    destruct (Rlt_dec 0 _); [reflexivity | contradiction].
Qed.

Lemma init_weights_nonpositive (d : option DataFrame) (w : dict) :
  sum (values w) <= 0 -> w <> [] ->
  risk_weights (init d (Some w)) = w.
Proof.
  intros Hle Hne. destruct w as [|kv w]; [congruence|].
  unfold init, risk_weights.
  destruct (Rlt_dec 0 _); [lra | reflexivity].
Qed.

Lemma list_sum_nonneg (l : list R) :
  (forall x, In x l -> 0 <= x) -> 0 <= pd.list_sum l.
Proof.
  induction l as [|y l IH]; intros H.
  - simpl. lra.
  - change (pd.list_sum (y :: l)) with (y + pd.list_sum l).
    assert (0 <= y) by (apply H; now left).
    assert (0 <= pd.list_sum l) by (apply IH; intros; apply H; now right).
    lra.
Qed.

(** No entry of a list of non-negative numbers exceeds their sum. *)
Lemma list_sum_ge (l : list R) (x : R) :
  (forall y, In y l -> 0 <= y) -> In x l -> x <= pd.list_sum l.
Proof.
  induction l as [|y l IH]; intros H Hin; [contradiction|].
  change (pd.list_sum (y :: l)) with (y + pd.list_sum l).
  assert (0 <= y) by (apply H; now left).
  assert (0 <= pd.list_sum l)
    by (apply list_sum_nonneg; intros; apply H; now right).
  destruct Hin as [->|Hin]; [lra|].
  assert (x <= pd.list_sum l) by (apply IH; auto; intros; apply H; now right).
  lra.
Qed.

(** C6, as supplied mappings behave.  For non-negative weights whose sum is
    strictly positive and inside the float range, the stored weights are
    the raw ones divided by that sum; each of them lies in [0,1], and they
    sum to 1: exactly in exact arithmetic, and on floats up to the rounding
    of the divisions and of the additions.  (A sum that leaves the float
    range is infinite, and every weight is then stored as 0.)  A non-empty
    mapping of sum 0 is stored unchanged.  The constructor is a total
    function on float weights: no case raises. *)
Theorem init_normalizes_weights (d : option DataFrame) (w : dict) :
  (nonneg_weights w -> 0 < sum (values w) -> in_float_range (sum (values w)) ->
   risk_weights (init d (Some w)) = scale (sum (values w)) w /\
   (forall key, get (risk_weights (init d (Some w))) key
                = get w key / sum (values w)) /\
   Forall (fun kv => 0 <= snd kv <= 1) (risk_weights (init d (Some w))) /\
   sum (values (risk_weights (init d (Some w)))) = 1)
  /\
  (sum (values w) = 0 -> w <> [] -> risk_weights (init d (Some w)) = w).
Proof.
  split.
  - intros Hnn Hpos _. rewrite init_weights_positive by assumption.
    split; [reflexivity|]. split; [|split].
    + intros key. apply get_scale.
    + unfold scale. rewrite Forall_map. apply Forall_forall. intros kv Hkv.
      cbn [snd]. assert (H0 : 0 <= snd kv)
        by (exact (proj1 (Forall_forall _ _) Hnn kv Hkv)).
      assert (Hle : snd kv <= sum (values w)).
      { rewrite sum_list_sum. apply list_sum_ge.
        - intros y Hy. apply in_map_iff in Hy as (kv' & <- & Hin).
          exact (proj1 (Forall_forall _ _) Hnn kv' Hin).
        - unfold values. now apply in_map. }
      split; [now apply div_nonneg|].
      apply Rmult_le_reg_r with (sum (values w)); [assumption|].
      unfold Rdiv. rewrite Rmult_assoc, Rinv_l by lra. lra.
    + rewrite sum_scale. field. lra.
  - intros H0 Hne. apply init_weights_nonpositive; [lra | assumption].
Qed.

Lemma init_normalizes_weights_witness :
  (risk_weights (init None (Some [("bird_density", 3); ("water_proximity", 1)]%string))
   = scale (sum [3; 1]) [("bird_density", 3); ("water_proximity", 1)]%string /\
   Forall (fun kv => 0 <= snd kv <= 1)
     (risk_weights
        (init None (Some [("bird_density", 3); ("water_proximity", 1)]%string))) /\
   sum (values (risk_weights
                  (init None (Some [("bird_density", 3); ("water_proximity", 1)]%string))))
   = 1)
  /\
  risk_weights (init None (Some [("bird_density", 0)]%string))
  = [("bird_density", 0)]%string.
Proof.
  split.
  - destruct (init_normalizes_weights None
                [("bird_density", 3); ("water_proximity", 1)]%string) as [Hp _].
    destruct Hp as (H1 & _ & H2 & H3).
    + repeat constructor; simpl; lra.
    + unfold sum; simpl. lra.
    + apply in_float_range_small. unfold sum; simpl. lra.
    + repeat split; assumption.
  - destruct (init_normalizes_weights None [("bird_density", 0)]%string) as [_ Hz].
    apply Hz.
    + unfold sum; simpl. lra.
    + discriminate.
Defined.

(** C6 as stated fails on the empty mapping: its sum is 0, yet what is
    stored is not the mapping but the (normalised) default weights. *)
Lemma init_empty_weights_counterexample :
  ~ (sum (values []) = 0 -> risk_weights (init None (Some [])) = []).
Proof.
  intros H. specialize (H eq_refl). revert H.
  unfold init, risk_weights.
  destruct (Rlt_dec 0 (sum (values default_weights))); discriminate.
Qed.

(** ** Ranking *)

Lemma insert_desc_perm (r : ResultRow) (l : Results) :
  Permutation (insert_desc r l) (r :: l).
Proof.
  induction l as [|x l IH]; simpl; [reflexivity|].
  destruct (Rlt_dec _ _); [|reflexivity].
  rewrite IH. apply perm_swap.
Qed.

Lemma sort_values_desc_perm (l : Results) : Permutation (sort_values_desc l) l.
Proof.
  induction l as [|r l IH]; simpl; [reflexivity|].
  rewrite insert_desc_perm. now constructor.
Qed.

Lemma insert_desc_sorted (r : ResultRow) (l : Results) :
  StronglySorted desc l -> StronglySorted desc (insert_desc r l).
Proof.
  induction 1 as [|x l Hs IH Hx]; simpl.
  - repeat constructor.
  - destruct (Rlt_dec (risk_score r) (risk_score x)) as [Hlt|Hge].
    + constructor; [assumption|].
      rewrite insert_desc_perm. constructor; [unfold desc; lra | assumption].
    + constructor; [now constructor|].
      constructor; [unfold desc; lra|].
      eapply Forall_impl; [|exact Hx]. unfold desc. intros; lra.
Qed.

Lemma sort_values_desc_sorted (l : Results) :
  StronglySorted desc (sort_values_desc l).
Proof.
  induction l as [|r l IH]; simpl; [constructor | now apply insert_desc_sorted].
Qed.

Lemma firstn_incl {A} (n : nat) (l : list A) (x : A) :
  In x (firstn n l) -> In x l.
Proof.
  revert n; induction l as [|y l IH]; intros [|n]; simpl; try tauto.
  intros [H|H]; eauto.
Qed.

Lemma skipn_incl {A} (n : nat) (l : list A) (x : A) :
  In x (skipn n l) -> In x l.
Proof.
  revert n; induction l as [|y l IH]; intros [|n]; simpl; try tauto.
  intros H; eauto.
Qed.

Lemma sorted_firstn (n : nat) (l : Results) :
  StronglySorted desc l -> StronglySorted desc (firstn n l).
Proof.
  intros H; revert n; induction H as [|x l Hs IH Hx]; intros [|n]; simpl;
    try constructor; auto.
  apply Forall_forall. intros y Hy. apply firstn_incl in Hy.
  now apply (proj1 (Forall_forall _ _) Hx).
Qed.

Lemma sorted_split (n : nat) (l : Results) (a b : ResultRow) :
  StronglySorted desc l -> In a (firstn n l) -> In b (skipn n l) -> desc a b.
Proof.
  intros H; revert n; induction H as [|x l Hs IH Hx]; intros [|n]; simpl;
    try tauto.
  intros [<-|Ha] Hb.
  - apply (proj1 (Forall_forall _ _) Hx). eapply skipn_incl; eassumption.
  - eauto.
Qed.

Lemma sort_values_desc_In (l : Results) (r : ResultRow) :
  In r (sort_values_desc l) <-> In r l.
Proof.
  split; apply Permutation_in;
    [apply sort_values_desc_perm | symmetry; apply sort_values_desc_perm].
Qed.

Lemma Rge_bool_true (x y : R) : Rge_bool x y = true <-> y <= x.
Proof.
  unfold Rge_bool. destruct (Rge_dec x y); split; intros; try easy; lra.
Qed.

(** C10.  With scores computed, [top_n=0] gives what omitting [top_n]
    gives: the rows whose score reaches the threshold, in descending
    order of score. *)
Theorem get_high_risk_zips_top_n_zero
    (self : RiskMap) (scores : Results) (threshold : R) :
  risk_scores self = Some scores ->
  exists res,
    get_high_risk_zips self threshold (Some 0%Z) = (self, inr res) /\
    get_high_risk_zips self threshold None = (self, inr res) /\
    StronglySorted desc res /\
    Permutation res
      (filter (fun r => Rge_bool (risk_score r) threshold) scores) /\
    (forall r, In r res <-> In r scores /\ threshold <= risk_score r).
Proof.
  intros H. unfold get_high_risk_zips. rewrite H. simpl.
  eexists. split; [reflexivity|]. split; [reflexivity|].
  split; [apply sort_values_desc_sorted|].
  split; [apply sort_values_desc_perm|].
  intros r. rewrite sort_values_desc_In, filter_In, Rge_bool_true. reflexivity.
Qed.

Lemma get_high_risk_zips_top_n_zero_witness :
  exists res,
    get_high_risk_zips sample_scored 0.85 (Some 0%Z) = (sample_scored, inr res) /\
    get_high_risk_zips sample_scored 0.85 None = (sample_scored, inr res) /\
    StronglySorted desc res /\
    Permutation res
      (filter (fun r => Rge_bool (risk_score r) 0.85)
         [sample_row 0 0.8; sample_row 1 0.9]) /\
    (forall r, In r res <->
               In r [sample_row 0 0.8; sample_row 1 0.9] /\ 0.85 <= risk_score r).
Proof.
  apply (get_high_risk_zips_top_n_zero sample_scored).
  reflexivity.
Defined.

Lemma nlargest_length (k : Z) (l : Results) :
  List.length (nlargest k l) = Nat.min (Z.to_nat k) (List.length l).
Proof.
  unfold nlargest. rewrite length_firstn.
  now rewrite (Permutation_length (sort_values_desc_perm l)).
Qed.

(** C7, for the values of [top_n] that pass the test [if top_n:].  With
    scores computed and [top_n = k], [k] other than 0, the rows returned are
    [k] rows of the table (all of them when there are fewer; none for a
    negative [k]), no row left out has a larger score than a row returned,
    the threshold plays no part, and the rows come in descending order of
    score.  Without [top_n] the rows returned are those whose score reaches
    the threshold, in descending order of score. *)
Theorem get_high_risk_zips_ranking
    (self : RiskMap) (scores : Results) (threshold : R) :
  risk_scores self = Some scores ->
  (forall k : Z, k <> 0%Z ->
     exists res rest,
       get_high_risk_zips self threshold (Some k) = (self, inr res) /\
       List.length res = Nat.min (Z.to_nat k) (List.length scores) /\
       Permutation (res ++ rest) scores /\
       (forall a b, In a res -> In b rest -> risk_score b <= risk_score a) /\
       StronglySorted desc res /\
       (forall t, get_high_risk_zips self t (Some k) = (self, inr res)))
  /\
  (exists res,
     get_high_risk_zips self threshold None = (self, inr res) /\
     Permutation res
       (filter (fun r => Rge_bool (risk_score r) threshold) scores) /\
     (forall r, In r res <-> In r scores /\ threshold <= risk_score r) /\
     StronglySorted desc res).
Proof.
  intros H. split.
  - intros k Hk.
    assert (Ht : truthy (Some k) = true).
    { simpl. now destruct (Z.eqb_spec k 0). }
    exists (sort_values_desc (nlargest k scores)),
           (skipn (Z.to_nat k) (sort_values_desc scores)).
    unfold get_high_risk_zips. rewrite H, Ht.
    split; [reflexivity|]. split; [|split; [|split; [|split]]].
    + rewrite (Permutation_length (sort_values_desc_perm _)).
      apply nlargest_length.
    + rewrite sort_values_desc_perm. unfold nlargest.
      rewrite firstn_skipn. apply sort_values_desc_perm.
    + intros a b Ha Hb. apply (proj1 (sort_values_desc_In _ _)) in Ha.
      exact (sorted_split _ _ a b (sort_values_desc_sorted scores) Ha Hb).
    + apply sort_values_desc_sorted.
    + reflexivity.
  - unfold get_high_risk_zips. rewrite H. simpl.
    eexists. split; [reflexivity|].
    split; [apply sort_values_desc_perm|]. split.
    + intros r. rewrite sort_values_desc_In, filter_In, Rge_bool_true.
      reflexivity.
    + apply sort_values_desc_sorted.
Qed.

Lemma get_high_risk_zips_ranking_witness :
  (forall k : Z, k <> 0%Z ->
     exists res rest,
       get_high_risk_zips sample_scored 0.85 (Some k) = (sample_scored, inr res) /\
       List.length res = Nat.min (Z.to_nat k) 2 /\
       Permutation (res ++ rest) [sample_row 0 0.8; sample_row 1 0.9] /\
       (forall a b, In a res -> In b rest -> risk_score b <= risk_score a) /\
       StronglySorted desc res /\
       (forall t, get_high_risk_zips sample_scored t (Some k)
                  = (sample_scored, inr res)))
  /\
  (exists res,
     get_high_risk_zips sample_scored 0.85 None = (sample_scored, inr res) /\
     Permutation res
       (filter (fun r => Rge_bool (risk_score r) 0.85)
          [sample_row 0 0.8; sample_row 1 0.9]) /\
     (forall r, In r res <->
                In r [sample_row 0 0.8; sample_row 1 0.9] /\ 0.85 <= risk_score r) /\
     StronglySorted desc res).
Proof.
  apply (get_high_risk_zips_ranking sample_scored
           [sample_row 0 0.8; sample_row 1 0.9] 0.85).
  reflexivity.
Defined.

Lemma Rge_bool_false (x y : R) : x < y -> Rge_bool x y = false.
Proof. intros H. unfold Rge_bool. destruct (Rge_dec x y); [lra | reflexivity]. Qed.

Lemma Rge_bool_true' (x y : R) : y <= x -> Rge_bool x y = true.
Proof. apply Rge_bool_true. Qed.

Lemma get_high_risk_zips_sample_zero :
  get_high_risk_zips sample_scored 0.85 (Some 0%Z)
    = (sample_scored, inr [sample_row 1 0.9]).
Proof.
  unfold get_high_risk_zips, sample_scored. simpl.
  rewrite Rge_bool_false by lra. rewrite Rge_bool_true' by lra. reflexivity.
Qed.

(** C7 as stated fails for [top_n = 0]: with two rows scored 0.8 and 0.9
    and threshold 0.85 the call returns one row, the one that reaches the
    threshold, not the zero highest-scoring rows. *)
Lemma top_n_zero_keeps_threshold_counterexample :
  ~ (exists res,
       get_high_risk_zips sample_scored 0.85 (Some 0%Z) = (sample_scored, inr res) /\
       List.length res = Nat.min (Z.to_nat 0) 2).
Proof.
  intros (res & Hres & Hlen). rewrite get_high_risk_zips_sample_zero in Hres.
  injection Hres as <-. simpl in Hlen. discriminate.
Qed.

(** ** The engine's state across calls *)

Lemma calculate_population_density_no_data (self : RiskMap) (p a : string) :
  zip_code_data self = None ->
  calculate_population_density self p a = (self, inl no_data).
Proof. intros H. unfold calculate_population_density. now rewrite H. Qed.

(** The table after a density call, case by case. *)
Lemma calculate_population_density_table (self : RiskMap) (df : DataFrame)
    (p a : string) :
  zip_code_data self = Some df ->
  let self' := fst (calculate_population_density self p a) in
  risk_scores self' = risk_scores self /\
  risk_map_gdf self' = risk_map_gdf self /\
  risk_weights self' = risk_weights self /\
  zip_code_data self' =
    Some (if has_column df a then df
          else match geometry df with
               | Some gdf =>
                   add_column df a
                     (of_values (map (fun g => mercator_area g / 1e6) gdf))
               | None => df
               end).
Proof.
  intros H. unfold calculate_population_density. rewrite H.
  destruct (has_column df a); simpl.
  - destruct (getitem df p); [destruct (getitem df a)|]; simpl; auto.
  - destruct (geometry df) as [gdf|]; simpl;
      [|destruct (to_crs_error df); simpl; auto].
    destruct (getitem _ p); [destruct (getitem _ a)|]; simpl; auto.
Qed.

Lemma calculate_risk_scores_table (self : RiskMap) (p a : string)
    (b w h v : option string) :
  zip_code_data (fst (calculate_risk_scores self p a b w h v))
  = zip_code_data (fst (calculate_population_density self p a)).
Proof.
  unfold calculate_risk_scores.
  destruct (zip_code_data self) as [df|] eqn:E.
  - destruct (calculate_population_density self p a) as [self' [e|d]]; simpl;
      [reflexivity|].
    destruct (zip_code_data self') as [df'|] eqn:E'; simpl; [|congruence].
    destruct (score_rows _ _ _ _ _ _ _); simpl; congruence.
  - rewrite calculate_population_density_no_data by assumption. reflexivity.
Qed.

Lemma has_column_getitem (df : DataFrame) (c : string) :
  has_column df c = true <-> getitem df c <> None.
Proof.
  unfold has_column, getitem.
  induction (columns df) as [|[k s] l IH]; simpl.
  - split; [discriminate | congruence].
  - destruct (String.eqb c k); simpl; [split; [discriminate | reflexivity] | exact IH].
Qed.

Lemma lookup_app_Some {A} (c : string) (l l' : list (string * A)) (x : A) :
  lookup c l = Some x -> lookup c (l ++ l') = Some x.
Proof.
  induction l as [|[k y] l IH]; simpl; [discriminate|].
  destruct (String.eqb c k); auto.
Qed.

Lemma getitem_add_column (df : DataFrame) (a c : string) (s : Series) :
  has_column df c = true -> getitem (add_column df a s) c = getitem df c.
Proof.
  intros H. apply has_column_getitem in H.
  unfold getitem in *. simpl.
  destruct (lookup c (columns df)) as [x|] eqn:E; [|congruence].
  now apply lookup_app_Some.
Qed.

Lemma calculate_population_density_unresolved (self : RiskMap) (df : DataFrame)
    (p a : string) :
  zip_code_data self = Some df ->
  has_column df a = false -> geometry df = None ->
  calculate_population_density self p a = (self, inl (area_unresolved df a)).
Proof.
  intros H Ha Hg. unfold calculate_population_density, area_unresolved.
  rewrite H, Ha, Hg. cbn [negb]. now destruct (to_crs_error df).
Qed.

(** C8, as the code has it.  A density or scoring call leaves the loaded
    table as it was when the table has the area column, and when it has
    neither that column nor geometry that can be reprojected; the call then
    fails, with the exception of [to_crs] (geometry without a CRS) or with
    the [ValueError] that names the missing column.  When the area column
    is absent and the table carries geometry with a CRS, the call adds that
    one column, holding the areas derived from geometry, to the table;
    every column that was there keeps its values, and nothing is
    removed. *)
Theorem area_table_after_call (self : RiskMap) (df : DataFrame)
    (p a : string) (b w h v : option string) :
  zip_code_data self = Some df ->
  let after := zip_code_data (fst (calculate_population_density self p a)) in
  zip_code_data (fst (calculate_risk_scores self p a b w h v)) = after /\
  (has_column df a = true \/ geometry df = None -> after = Some df) /\
  (has_column df a = false -> geometry df = None ->
   calculate_population_density self p a = (self, inl (area_unresolved df a)) /\
   calculate_risk_scores self p a b w h v = (self, inl (area_unresolved df a)) /\
   (forall e, to_crs_error df = Some e -> area_unresolved df a = e) /\
   (to_crs_error df = None -> exists msg, area_unresolved df a = ValueError msg)) /\
  (forall gdf,
     has_column df a = false -> geometry df = Some gdf ->
     exists df',
       after = Some df' /\
       df' = add_column df a
               (of_values (map (fun g => mercator_area g / 1e6) gdf)) /\
       nrows df' = nrows df /\ geometry df' = geometry df /\
       (forall c, has_column df c = true -> getitem df' c = getitem df c)).
Proof.
  intros H after.
  destruct (calculate_population_density_table self df p a H) as (_ & _ & _ & Ht).
  fold after in Ht.
  split; [apply calculate_risk_scores_table|]. split; [|split].
  - intros [Ha|Hg]; rewrite Ht.
    + now rewrite Ha.
    + rewrite Hg. now destruct (has_column df a).
  - intros Ha Hg.
    pose proof (calculate_population_density_unresolved self df p a H Ha Hg) as Hd.
    split; [exact Hd|]. split; [|split].
    + unfold calculate_risk_scores. now rewrite H, Hd.
    + intros e He. unfold area_unresolved. now rewrite He.
    + intros He. unfold area_unresolved. rewrite He. eexists. reflexivity.
  - intros gdf Ha Hg. eexists. split; [rewrite Ht, Ha, Hg; reflexivity|].
    split; [reflexivity|]. split; [reflexivity|]. split; [reflexivity|].
    intros c Hc. now apply getitem_add_column.
Qed.

Lemma area_table_after_call_witness :
  let after :=
    zip_code_data
      (fst (calculate_population_density (init (Some sample_geo_table) None)
              "population" "area_km2")) in
  zip_code_data (fst (calculate_risk_scores_default (init (Some sample_geo_table) None)))
  = after /\
  (has_column sample_geo_table "area_km2" = true \/ geometry sample_geo_table = None ->
   after = Some sample_geo_table) /\
  (has_column sample_geo_table "area_km2" = false ->
   geometry sample_geo_table = None ->
   calculate_population_density (init (Some sample_geo_table) None)
     "population" "area_km2"
   = (init (Some sample_geo_table) None,
      inl (area_unresolved sample_geo_table "area_km2")) /\
   calculate_risk_scores_default (init (Some sample_geo_table) None)
   = (init (Some sample_geo_table) None,
      inl (area_unresolved sample_geo_table "area_km2")) /\
   (forall e, to_crs_error sample_geo_table = Some e ->
              area_unresolved sample_geo_table "area_km2" = e) /\
   (to_crs_error sample_geo_table = None ->
    exists msg, area_unresolved sample_geo_table "area_km2" = ValueError msg)) /\
  (forall gdf,
     has_column sample_geo_table "area_km2" = false ->
     geometry sample_geo_table = Some gdf ->
     exists df',
       after = Some df' /\
       df' = add_column sample_geo_table "area_km2"
               (of_values (map (fun g => mercator_area g / 1e6) gdf)) /\
       nrows df' = nrows sample_geo_table /\
       geometry df' = geometry sample_geo_table /\
       (forall c, has_column sample_geo_table c = true ->
                  getitem df' c = getitem sample_geo_table c)).
Proof.
  apply (area_table_after_call (init (Some sample_geo_table) None) sample_geo_table).
  reflexivity.
Defined.

(** C8 as stated fails when the area column has to be derived from
    geometry (with a CRS): after the density call the table has a column it
    did not have. *)
Lemma area_column_added_counterexample :
  zip_code_data (init (Some sample_geo_table) None) = Some sample_geo_table /\
  zip_code_data
    (fst (calculate_population_density (init (Some sample_geo_table) None)
            "population" "area_km2"))
  <> Some sample_geo_table.
Proof.
  split; [reflexivity|].
  pose proof (calculate_population_density_table
                (init (Some sample_geo_table) None) sample_geo_table
                "population" "area_km2" eq_refl) as (_ & _ & _ & Ht).
  rewrite Ht. simpl. unfold add_column, sample_geo_table. simpl.
  intros Heq. injection Heq as Hcols. discriminate Hcols.
Qed.

Lemma calculate_population_density_cache (self : RiskMap) (p a : string) :
  risk_scores (fst (calculate_population_density self p a)) = risk_scores self /\
  risk_map_gdf (fst (calculate_population_density self p a)) = risk_map_gdf self.
Proof.
  destruct (zip_code_data self) as [df|] eqn:E.
  - destruct (calculate_population_density_table self df p a E) as (H1 & H2 & _).
    now split.
  - rewrite calculate_population_density_no_data by assumption. now split.
Qed.

Lemma calculate_risk_scores_failure_cache (self self' : RiskMap) (e : exn)
    (p a : string) (b w h v : option string) :
  calculate_risk_scores self p a b w h v = (self', inl e) ->
  risk_scores self' = risk_scores self /\ risk_map_gdf self' = risk_map_gdf self.
Proof.
  unfold calculate_risk_scores.
  destruct (zip_code_data self) as [df|] eqn:E.
  - pose proof (calculate_population_density_cache self p a) as Hc.
    destruct (calculate_population_density self p a) as [self1 [e1|d]];
      simpl in Hc.
    + intros H; injection H as <- _. exact Hc.
    + destruct (zip_code_data self1) as [df1|].
      * destruct (score_rows _ _ _ _ _ _ _); intros H; [|discriminate].
        injection H as <- _. exact Hc.
      * intros H; injection H as <- _. exact Hc.
  - intros H; injection H as <- _. now split.
Qed.

Lemma get_high_risk_zips_state (self : RiskMap) (t : R) (n : option Z) :
  fst (get_high_risk_zips self t n) = self.
Proof.
  unfold get_high_risk_zips. now destruct (risk_scores self).
Qed.

Lemma get_high_risk_zips_answer (self self' : RiskMap) (t : R) (n : option Z) :
  risk_scores self' = risk_scores self ->
  snd (get_high_risk_zips self' t n) = snd (get_high_risk_zips self t n).
Proof.
  intros H. unfold get_high_risk_zips. rewrite H.
  now destruct (risk_scores self).
Qed.

(** C9.  A failing call of [calculate_risk_scores], of
    [calculate_population_density] or of [get_high_risk_zips] leaves the
    cached result table (and the combined table kept with it) exactly as it
    was, and every ranking query answers afterwards as it did before. *)
Theorem failing_call_keeps_cached_result
    (self self' : RiskMap) (e : exn) (p a : string) (b w h v : option string)
    (t : R) (n : option Z) :
  calculate_risk_scores self p a b w h v = (self', inl e) \/
  calculate_population_density self p a = (self', inl e) \/
  get_high_risk_zips self t n = (self', inl e) ->
  risk_scores self' = risk_scores self /\
  risk_map_gdf self' = risk_map_gdf self /\
  (forall t' n', snd (get_high_risk_zips self' t' n')
                 = snd (get_high_risk_zips self t' n')).
Proof.
  intros H.
  assert (Hc : risk_scores self' = risk_scores self /\
               risk_map_gdf self' = risk_map_gdf self).
  { destruct H as [H|[H|H]].
    - eapply calculate_risk_scores_failure_cache; eassumption.
    - pose proof (calculate_population_density_cache self p a) as Hc.
      now rewrite H in Hc.
    - pose proof (get_high_risk_zips_state self t n) as Hs.
      rewrite H in Hs. simpl in Hs. subst self'. now split. }
  destruct Hc as (Hs & Hg). repeat split; try assumption.
  intros t' n'. now apply get_high_risk_zips_answer.
Qed.

Lemma failing_call_keeps_cached_result_witness :
  let self' :=
    with_zip_code_data sample_no_population
      {| nrows := 1;
         columns := [("area_km2"%string, [Some (2e6 / 1e6)])];
         geometry := Some [ {| mercator_area := 2e6 |} ];
         to_crs_error := None |} in
  risk_scores self' = risk_scores sample_no_population /\
  risk_map_gdf self' = risk_map_gdf sample_no_population /\
  (forall t' n', snd (get_high_risk_zips self' t' n')
                 = snd (get_high_risk_zips sample_no_population t' n')).
Proof.
  intros self'.
  apply (failing_call_keeps_cached_result sample_no_population self'
           (KeyError "population") "population" "area_km2"
           (Some "bird_density"%string) (Some "water_proximity"%string)
           (Some "healthcare_capacity"%string) (Some "vulnerability_index"%string)
           0.7 None).
  left. reflexivity.
Defined.

(** ** Min-max normalisation, one entry at a time *)

Lemma normalize_min_max (l : list R) :
  normalize_risk_factor (of_values l) "min_max" = inr (min_max l).
Proof.
  rewrite min_max_unfold. unfold min_max, pd.max, pd.min.
  now rewrite dropna_of_values.
Qed.

Lemma min_max_length (l : list R) : List.length (min_max l) = List.length l.
Proof.
  rewrite (normalize_length _ _ _ (normalize_min_max l)).
  apply length_map.
Qed.

Lemma list_max_min_some (l : list R) (m : R) :
  pd.list_min l = Some m -> exists M, pd.list_max l = Some M.
Proof.
  destruct l as [|x l]; simpl; [discriminate|].
  intros _. destruct (pd.list_max l); eauto.
Qed.

Lemma nth_map_lt {A B} (f : A -> B) (l : list A) (d : A) (d' : B) (i : nat) :
  (i < List.length l)%nat -> nth i (map f l) d' = f (nth i l d).
Proof.
  revert i; induction l as [|x l IH]; intros [|i] Hi; simpl in *; try lia.
  - reflexivity.
  - apply IH. lia.
Qed.

Lemma min_max_nth (l : list R) (i : nat) (m M : R) :
  pd.list_min l = Some m -> pd.list_max l = Some M ->
  (i < List.length l)%nat ->
  nth i (min_max l) 0 = spread_norm m M (nth i l 0).
Proof.
  intros Hm HM Hi. unfold min_max, spread_norm. rewrite Hm, HM. simpl.
  destruct (Rlt_dec 0 (M - m)).
  - unfold pd.fillna, pd.div_scalar, pd.sub_scalar, of_values.
    rewrite !map_map. now rewrite (nth_map_lt _ l 0 0 i Hi).
  - rewrite fillna_full. unfold of_values. rewrite length_map.
    rewrite nth_repeat. reflexivity.
Qed.

Lemma div_le_cross (n1 d1 n2 d2 : R) :
  0 < d1 -> 0 < d2 -> n1 * d2 <= n2 * d1 -> n1 / d1 <= n2 / d2.
Proof.
  intros H1 H2 H. apply Rmult_le_reg_r with (d1 * d2); [nra|].
  replace (n1 / d1 * (d1 * d2)) with (n1 * d2) by (field; lra).
  replace (n2 / d2 * (d1 * d2)) with (n2 * d1) by (field; lra).
  assumption.
Qed.

(** Raising one entry, the others staying between [a] and [b], never
    lowers its min-max image. *)
Lemma spread_norm_mono (a b x v : R) :
  a <= b -> x <= v ->
  spread_norm (Rmin x a) (Rmax x b) x <= spread_norm (Rmin v a) (Rmax v b) v.
Proof.
  intros Hab Hxv. unfold spread_norm, Rmin, Rmax.
  repeat match goal with
         | |- context [Rle_dec ?p ?q] => destruct (Rle_dec p q)
         | |- context [Rlt_dec ?p ?q] => destruct (Rlt_dec p q)
         end;
    try lra;
    try (apply div_le_cross; nra);
    try (apply div_nonneg; lra);
    try (replace (x - x) with 0 by ring; unfold Rdiv; rewrite Rmult_0_l;
         try lra; apply div_nonneg; lra).
Qed.

Lemma set_nth_length {A} (i : nat) (v : A) (l : list A) :
  List.length (set_nth i v l) = List.length l.
Proof. revert i; induction l; intros [|i]; simpl; auto. Qed.

Lemma set_nth_out {A} (i : nat) (v : A) (l : list A) :
  (List.length l <= i)%nat -> set_nth i v l = l.
Proof.
  revert i; induction l as [|x l IH]; intros [|i] H; simpl in *; try lia; auto.
  f_equal. apply IH. lia.
Qed.

Lemma set_nth_split {A} (i : nat) (v d : A) (l : list A) :
  (i < List.length l)%nat ->
  exists l1 l2,
    l = l1 ++ nth i l d :: l2 /\ List.length l1 = i /\
    set_nth i v l = l1 ++ v :: l2.
Proof.
  revert i; induction l as [|x l IH]; intros [|i] H; simpl in *; try lia.
  - exists [], l. auto.
  - destruct (IH i) as (l1 & l2 & H1 & H2 & H3); [lia|].
    exists (x :: l1), l2. simpl. repeat split; congruence.
Qed.

Lemma set_nth_map {A B} (f : A -> B) (i : nat) (v : A) (l : list A) :
  map f (set_nth i v l) = set_nth i (f v) (map f l).
Proof. revert i; induction l; intros [|i]; simpl; congruence. Qed.

Lemma list_min_insert (l1 l2 : list R) (x : R) :
  pd.list_min (l1 ++ x :: l2)
  = Some (match pd.list_min (l1 ++ l2) with
          | Some a => Rmin x a
          | None => x
          end).
Proof.
  induction l1 as [|y l1 IH]; simpl.
  - destruct (pd.list_min l2); reflexivity.
  - rewrite IH. destruct (pd.list_min (l1 ++ l2)) as [a|]; f_equal.
    + unfold Rmin. repeat destruct (Rle_dec _ _); lra.
    + apply Rmin_comm.
Qed.

Lemma list_max_insert (l1 l2 : list R) (x : R) :
  pd.list_max (l1 ++ x :: l2)
  = Some (match pd.list_max (l1 ++ l2) with
          | Some b => Rmax x b
          | None => x
          end).
Proof.
  induction l1 as [|y l1 IH]; simpl.
  - destruct (pd.list_max l2); reflexivity.
  - rewrite IH. destruct (pd.list_max (l1 ++ l2)) as [b|]; f_equal.
    + unfold Rmax. repeat destruct (Rle_dec _ _); lra.
    + apply Rmax_comm.
Qed.

Lemma list_min_le_max (l : list R) (a b : R) :
  pd.list_min l = Some a -> pd.list_max l = Some b -> a <= b.
Proof.
  intros Ha Hb. eapply list_max_ge; [eassumption|].
  now apply list_min_In.
Qed.

Lemma min_max_middle (l1 l2 : list R) (x : R) :
  nth (List.length l1) (min_max (l1 ++ x :: l2)) 0
  = match pd.list_min (l1 ++ l2), pd.list_max (l1 ++ l2) with
    | Some a, Some b => spread_norm (Rmin x a) (Rmax x b) x
    | _, _ => 0
    end.
Proof.
  rewrite (min_max_nth _ _ _ _ (list_min_insert l1 l2 x) (list_max_insert l1 l2 x))
    by (rewrite length_app; simpl; lia).
  rewrite nth_middle.
  destruct (pd.list_min (l1 ++ l2)) as [a|] eqn:Ea.
  - destruct (list_max_min_some _ _ Ea) as (b & Eb). now rewrite Eb.
  - apply list_min_None in Ea. rewrite Ea. simpl.
    unfold spread_norm. destruct (Rlt_dec 0 (x - x)); [lra | reflexivity].
Qed.

(** Raising one entry of a column never lowers the normalised value of
    that entry. *)
Lemma min_max_update_mono (l : list R) (i : nat) (v : R) :
  nth i l 0 <= v ->
  nth i (min_max l) 0 <= nth i (min_max (set_nth i v l)) 0.
Proof.
  intros Hv. destruct (Nat.lt_ge_cases i (List.length l)) as [Hi|Hi].
  - destruct (set_nth_split i v 0 l Hi) as (l1 & l2 & Hl & Hlen & Hset).
    rewrite Hset. rewrite Hl at 1. rewrite <- Hlen, !min_max_middle.
    destruct (pd.list_min (l1 ++ l2)) as [a|] eqn:Ea; [|lra].
    destruct (pd.list_max (l1 ++ l2)) as [b|] eqn:Eb; [|lra].
    apply spread_norm_mono; [eapply list_min_le_max; eassumption|].
    now rewrite Hlen.
  - rewrite set_nth_out by assumption. lra.
Qed.

(** ** Changing one raw value of the table *)

Lemma getitem_set_cell_same (df : DataFrame) (c : string) (i : nat) (v : cell) :
  getitem (set_cell df c i v) c = option_map (set_nth i v) (getitem df c).
Proof.
  unfold getitem, set_cell; simpl.
  induction (columns df) as [|[k s] l IH]; simpl; [reflexivity|].
  destruct (String.eqb c k) eqn:E; simpl; rewrite E; [reflexivity | exact IH].
Qed.

Lemma getitem_set_cell_other (df : DataFrame) (c c' : string) (i : nat) (v : cell) :
  c' <> c -> getitem (set_cell df c i v) c' = getitem df c'.
Proof.
  intros Hne. unfold getitem, set_cell; simpl.
  induction (columns df) as [|[k s] l IH]; simpl; [reflexivity|].
  destruct (String.eqb c k) eqn:E; simpl.
  - apply String.eqb_eq in E; subst k.
    destruct (String.eqb_spec c' c); [contradiction | exact IH].
  - destruct (String.eqb c' k); [reflexivity | exact IH].
Qed.

Lemma has_column_set_cell (df : DataFrame) (c c' : string) (i : nat) (v : cell) :
  has_column (set_cell df c i v) c' = has_column df c'.
Proof.
  unfold has_column, set_cell; simpl.
  induction (columns df) as [|[k s] l IH]; simpl; [reflexivity|].
  rewrite IH. now destruct (String.eqb c k).
Qed.

Lemma set_cell_add_column (df : DataFrame) (a c : string) (s : Series)
    (i : nat) (v : cell) :
  c <> a ->
  set_cell (add_column df a s) c i v = add_column (set_cell df c i v) a s.
Proof.
  intros Hne. unfold set_cell, add_column; simpl. f_equal.
  rewrite map_app. simpl.
  destruct (String.eqb_spec c a); [contradiction | reflexivity].
Qed.

Lemma resolve_set_cell (df : DataFrame) (a c : string) (i : nat) (v : cell) :
  c <> a ->
  resolve (set_cell df c i v) a
  = option_map (fun d => set_cell d c i v) (resolve df a).
Proof.
  intros Hne. unfold resolve. rewrite has_column_set_cell.
  destruct (has_column df a); [reflexivity|].
  change (geometry (set_cell df c i v)) with (geometry df).
  destruct (geometry df); simpl; [|reflexivity].
  now rewrite set_cell_add_column.
Qed.

Lemma getitem_add_column_new (df : DataFrame) (a : string) (s : Series) :
  has_column df a = false -> getitem (add_column df a s) a = Some s.
Proof.
  unfold has_column, getitem, add_column; simpl.
  induction (columns df) as [|[k x] l IH]; simpl.
  - now rewrite String.eqb_refl.
  - destruct (String.eqb a k); simpl; [discriminate | exact IH].
Qed.

Lemma resolve_area_nonneg (df df1 : DataFrame) (a : string) (area : Series) (y : R) :
  area_nonneg df a -> resolve df a = Some df1 -> getitem df1 a = Some area ->
  In (Some y) area -> 0 <= y.
Proof.
  intros [Hcol Hgeo]. unfold resolve.
  destruct (has_column df a) eqn:Ha.
  - intros H; injection H as <-. eauto.
  - destruct (geometry df) as [gdf|] eqn:Hg; [|discriminate].
    intros H; injection H as <-.
    rewrite getitem_add_column_new by assumption.
    intros H; injection H as <-. unfold of_values. rewrite map_map.
    intros Hin. apply in_map_iff in Hin as (g & Hy & Hin).
    injection Hy as <-. apply div_nonneg; [eauto | lra].
Qed.

Lemma resolve_getitem (df df1 : DataFrame) (a c : string) (s : Series) :
  resolve df a = Some df1 -> getitem df c = Some s -> getitem df1 c = Some s.
Proof.
  unfold resolve. destruct (has_column df a).
  - intros H; injection H as <-. auto.
  - destruct (geometry df); [|discriminate].
    intros H Hc; injection H as <-.
    rewrite getitem_add_column; [assumption|].
    apply has_column_getitem. congruence.
Qed.

Lemma resolve_nrows (df df1 : DataFrame) (a : string) :
  resolve df a = Some df1 -> nrows df1 = nrows df.
Proof.
  unfold resolve. destruct (has_column df a).
  - intros H; injection H as <-. reflexivity.
  - destruct (geometry df); [|discriminate].
    intros H; injection H as <-. reflexivity.
Qed.

(** ** What a scoring call returns *)

Lemma calculate_risk_scores_run (self : RiskMap) (df : DataFrame)
    (p a : string) (b w h v : option string) :
  zip_code_data self = Some df ->
  snd (calculate_risk_scores self p a b w h v) =
    match resolve df a with
    | None => inl (area_unresolved df a)
    | Some df1 =>
        match getitem df1 p with
        | None => inl (KeyError p)
        | Some population =>
            match getitem df1 a with
            | None => inl (KeyError a)
            | Some area =>
                score_rows (risk_weights self) df1 (density population area)
                  b w h v
            end
        end
    end.
Proof.
  intros H.
  unfold calculate_risk_scores, calculate_population_density, resolve,
    area_unresolved.
  rewrite H.
  destruct (has_column df a); simpl.
  - destruct (getitem df p); [|reflexivity].
    destruct (getitem df a); [|reflexivity].
    rewrite H. fold (density s s0).
    now destruct (score_rows _ _ _ _ _ _ _).
  - destruct (geometry df); [|now destruct (to_crs_error df)].
    destruct (getitem _ p); [|reflexivity].
    destruct (getitem _ a); [|reflexivity].
    simpl. fold (density s s0).
    now destruct (score_rows _ _ _ _ _ _ _).
Qed.

(** Scoring never fails once the density is there: one row per row of the
    table, scored by the weighted sum of the normalised columns and binned
    by [cut]. *)
Lemma score_rows_spec (weights : dict) (df : DataFrame) (pop_density : list R)
    (b w h v : option string) :
  exists res,
    score_rows weights df pop_density b w h v = inr res /\
    List.length res = nrows df /\
    forall i, (i < nrows df)%nat ->
      exists r,
        nth_error res i = Some r /\
        row r = i /\
        risk_score r =
          composite weights (min_max pop_density) (factor_norm df b)
            (factor_norm df w) (health_norm df h) (factor_norm df v) i /\
        risk_category r = cut (risk_score r) bins labels.
Proof.
  unfold score_rows, factor_norm, health_norm.
  destruct (factor df b) as [fb|], (factor df w) as [fw|],
           (factor df h) as [fh|], (factor df v) as [fv|];
    repeat (rewrite normalize_min_max || (progress (cbv beta iota delta [ebind])));
    (eexists; split; [reflexivity|];
     split; [now rewrite length_map, length_seq|];
     intros i Hi; eexists; split;
     [ rewrite nth_error_map, nth_error_seq;
       apply Nat.ltb_lt in Hi; rewrite Hi; reflexivity
     | cbn [risk_score risk_category row Nat.add option_map];
       unfold composite, bins, labels; repeat split ]).
Qed.

(** ** Factor columns under a change of one raw value *)

Lemma factor_set_cell_other (df : DataFrame) (c : string) (i : nat) (x : cell)
    (o : option string) :
  o <> Some c -> factor (set_cell df c i x) o = factor df o.
Proof.
  intros Hne. destruct o as [c'|]; [|reflexivity]. unfold factor.
  rewrite has_column_set_cell, getitem_set_cell_other by congruence.
  reflexivity.
Qed.

Lemma factor_set_cell_same (df : DataFrame) (c : string) (i : nat) (x : R) :
  factor (set_cell df c i (Some x)) (Some c)
  = option_map (set_nth i x) (factor df (Some c)).
Proof.
  unfold factor. rewrite has_column_set_cell, getitem_set_cell_same.
  destruct (negb (String.eqb c "") && has_column df c); [|reflexivity].
  destruct (getitem df c) as [s|]; [|reflexivity]. simpl.
  unfold pd.fillna. now rewrite set_nth_map.
Qed.

Lemma factor_nth (df : DataFrame) (c : string) (i : nat) (x : R) (f : list R) :
  cell_at df c i = Some (Some x) -> factor df (Some c) = Some f ->
  nth i f 0 = x /\ (i < List.length f)%nat.
Proof.
  unfold cell_at, factor.
  destruct (negb (String.eqb c "") && has_column df c); [|discriminate].
  destruct (getitem df c) as [s|]; [|discriminate]. simpl.
  intros Hi Hf; injection Hf as <-. split.
  - apply nth_error_nth with (d := 0). unfold pd.fillna.
    rewrite nth_error_map. unfold cell in Hi. now rewrite Hi.
  - rewrite fillna_length. apply nth_error_Some. congruence.
Qed.


Lemma factor_norm_same (df : DataFrame) (c : string) (i : nat) (x : cell)
    (o : option string) :
  o <> Some c -> factor_norm (set_cell df c i x) o = factor_norm df o.
Proof.
  intros H. unfold factor_norm. now rewrite factor_set_cell_other.
Qed.


(** Raising the raw healthcare capacity never raises the healthcare term. *)
Lemma health_norm_anti (df : DataFrame) (c : string) (i : nat) (x x' : R) :
  cell_at df c i = Some (Some x) -> x <= x' ->
  nth i (health_norm (set_cell df c i (Some x')) (Some c)) 0
  <= nth i (health_norm df (Some c)) 0.
Proof.
  intros Hc Hx. unfold health_norm. rewrite factor_set_cell_same.
  destruct (factor df (Some c)) as [f|] eqn:Ef; simpl; [|apply Rle_refl].
  destruct (factor_nth _ _ _ _ _ Hc Ef) as [Hn Hi].
  rewrite !(nth_map_lt (fun y => 1 - y) _ 0 0)
    by (now rewrite min_max_length, ?set_nth_length).
  pose proof (min_max_update_mono f i x') as Hm.
  rewrite Hn in Hm. specialize (Hm Hx). lra.
Qed.

(** ** The density column under a change of one population *)



Lemma density_nth (pop area : Series) (i : nat) :
  nth i (density pop area) 0 = cell_density (nth i pop None) (nth i area None).
Proof.
  unfold density, pd.fillna.
  revert area i; induction pop as [|x pop IH]; intros [|y area] [|i]; simpl;
    try reflexivity.
  - now destruct x.
  - now destruct (nth i pop None).
  - apply IH.
Qed.

Lemma truediv_finite (x y : R) :
  y <> 0 -> in_float_range (x / y) -> truediv (Some x) (Some y) = Finite (x / y).
Proof.
  intros H Hr. unfold truediv, in_float_range in *.
  destruct (Req_dec_T y 0); [contradiction|].
  destruct (Rle_dec float_overflow (Rabs (x / y))); [lra | reflexivity].
Qed.

Lemma truediv_overflow (x y : R) :
  y <> 0 -> ~ in_float_range (x / y) -> truediv (Some x) (Some y) = Infinite.
Proof.
  intros H Hr. unfold truediv, in_float_range in *.
  destruct (Req_dec_T y 0); [contradiction|].
  destruct (Rle_dec float_overflow (Rabs (x / y))); [reflexivity | lra].
Qed.




Lemma get_nonneg (d : dict) (key : string) : nonneg_weights d -> 0 <= get d key.
Proof.
  unfold get, nonneg_weights. induction 1 as [|[k v] l Hv Hl IH]; simpl.
  - lra.
  - destruct (String.eqb key k); [exact Hv | exact IH].
Qed.

Lemma init_nonneg_weights (d : option DataFrame) (w : option dict) :
  (forall x, w = Some x -> nonneg_weights x) ->
  nonneg_weights (risk_weights (init d w)).
Proof.
  intros Hw.
  assert (Hdef : nonneg_weights default_weights)
    by (unfold default_weights; repeat constructor; simpl; lra).
  assert (Hscale : forall x, nonneg_weights x ->
            nonneg_weights (if Rlt_dec 0 (sum (values x))
                            then map (fun kv => (fst kv, snd kv / sum (values x))) x
                            else x)).
  { intros x Hx. destruct (Rlt_dec 0 (sum (values x))) as [Hpos|]; [|assumption].
    unfold nonneg_weights in *. rewrite Forall_map.
    eapply Forall_impl; [|exact Hx]. simpl. intros kv Hkv.
    now apply div_nonneg. }
  unfold init, risk_weights.
  destruct w as [[|kv x]|]; try (apply Hscale; assumption).
  apply Hscale. now apply Hw.
Qed.

Lemma composite_mono (weights : dict) (pn pn' bn bn' wn wn' hn hn' vn vn' : list R)
    (i : nat) :
  nonneg_weights weights ->
  nth i pn 0 <= nth i pn' 0 -> nth i bn 0 <= nth i bn' 0 ->
  nth i wn 0 <= nth i wn' 0 -> nth i hn 0 <= nth i hn' 0 ->
  nth i vn 0 <= nth i vn' 0 ->
  composite weights pn bn wn hn vn i <= composite weights pn' bn' wn' hn' vn' i.
Proof.
  intros Hw Hp Hb Hwa Hh Hv. unfold composite.
  pose proof (get_nonneg weights "population_density" Hw).
  pose proof (get_nonneg weights "bird_density" Hw).
  pose proof (get_nonneg weights "water_proximity" Hw).
  pose proof (get_nonneg weights "healthcare_capacity" Hw).
  pose proof (get_nonneg weights "vulnerability_index" Hw).
  repeat apply Rplus_le_compat; apply Rmult_le_compat_r; assumption.
Qed.

Lemma resolve_has_area (df df1 : DataFrame) (a : string) :
  resolve df a = Some df1 -> exists area, getitem df1 a = Some area.
Proof.
  unfold resolve. destruct (has_column df a) eqn:Ha.
  - intros H; injection H as <-. apply has_column_getitem in Ha.
    destruct (getitem df a); [eauto | congruence].
  - destruct (geometry df); [|discriminate].
    intros H; injection H as <-. rewrite getitem_add_column_new by assumption.
    eauto.
Qed.

(** The two scoring calls compared below, side by side: the engine as it
    is, and the engine with one raw value of its table changed.  Both
    succeed when the population column is there and the area resolves, and
    row [i] of each result carries the weighted sum of the normalised
    columns of its table. *)
Lemma scoring_side_by_side (self : RiskMap) (df : DataFrame) (p a c : string)
    (b w h v : option string) (i : nat) (x x' : R) :
  zip_code_data self = Some df ->
  has_column df p = true -> resolve df a <> None -> c <> a ->
  (i < nrows df)%nat -> cell_at df c i = Some (Some x) ->
  exists df1 pop pop' area res res' r r',
    resolve df a = Some df1 /\
    getitem df1 p = Some pop /\ getitem df1 a = Some area /\
    (c = p -> pop' = set_nth i (Some x') pop /\ nth_error pop i = Some (Some x)) /\
    (c <> p -> pop' = pop) /\
    cell_at df1 c i = Some (Some x) /\
    (forall y, area_nonneg df a -> In (Some y) area -> 0 <= y) /\
    snd (calculate_risk_scores self p a b w h v) = inr res /\
    snd (calculate_risk_scores
           (with_zip_code_data self (set_cell df c i (Some x'))) p a b w h v)
      = inr res' /\
    nth_error res i = Some r /\ nth_error res' i = Some r' /\
    risk_score r =
      composite (risk_weights self) (min_max (density pop area))
        (factor_norm df1 b) (factor_norm df1 w) (health_norm df1 h)
        (factor_norm df1 v) i /\
    risk_score r' =
      composite (risk_weights self) (min_max (density pop' area))
        (factor_norm (set_cell df1 c i (Some x')) b)
        (factor_norm (set_cell df1 c i (Some x')) w)
        (health_norm (set_cell df1 c i (Some x')) h)
        (factor_norm (set_cell df1 c i (Some x')) v) i.
Proof.
  intros Hdf Hp Ha Hca Hi Hc.
  destruct (resolve df a) as [df1|] eqn:Hres; [clear Ha | congruence].
  destruct (resolve_has_area _ _ _ Hres) as (area & Harea).
  apply has_column_getitem in Hp.
  destruct (getitem df p) as [pop0|] eqn:Hpop0; [clear Hp | congruence].
  pose proof (resolve_getitem _ _ _ p _ Hres Hpop0) as Hpop.
  assert (Hc1 : cell_at df1 c i = Some (Some x)).
  { unfold cell_at in *. destruct (getitem df c) as [s|] eqn:Hs; [|discriminate].
    now rewrite (resolve_getitem _ _ _ c _ Hres Hs). }
  assert (Hrows : nrows df1 = nrows df) by now apply resolve_nrows in Hres.
  set (df1' := set_cell df1 c i (Some x')).
  assert (Harea' : getitem df1' a = Some area).
  { unfold df1'. rewrite getitem_set_cell_other by congruence. assumption. }
  assert (Hpop' : exists pop',
             getitem df1' p = Some pop' /\
             (c = p -> pop' = set_nth i (Some x') pop0
                       /\ nth_error pop0 i = Some (Some x)) /\
             (c <> p -> pop' = pop0)).
  { destruct (String.eqb_spec c p) as [->|Hne].
    - exists (set_nth i (Some x') pop0). unfold df1'.
      rewrite getitem_set_cell_same, Hpop. split; [reflexivity|].
      split; [|congruence]. intros _. split; [reflexivity|].
      unfold cell_at in Hc1. now rewrite Hpop in Hc1.
    - exists pop0. unfold df1'.
      rewrite getitem_set_cell_other by congruence.
      split; [assumption|]. split; [congruence | reflexivity]. }
  destruct Hpop' as (pop' & Hpop' & Hsame & Hother).
  destruct (score_rows_spec (risk_weights self) df1 (density pop0 area) b w h v)
    as (res & Hrun & _ & Hrow).
  destruct (score_rows_spec (risk_weights self) df1' (density pop' area) b w h v)
    as (res' & Hrun' & _ & Hrow').
  destruct (Hrow i) as (r & Hr & _ & Hscore & _); [lia|].
  destruct (Hrow' i) as (r' & Hr' & _ & Hscore' & _);
    [unfold df1'; simpl; lia|].
  exists df1, pop0, pop', area, res, res', r, r'.
  split; [reflexivity|].
  repeat (split; [eassumption|]).
  split.
  { intros y Hnn Hy. eapply resolve_area_nonneg; eassumption. }
  split.
  { rewrite (calculate_risk_scores_run self df) by assumption.
    now rewrite Hres, Hpop, Harea. }
  split.
  { rewrite (calculate_risk_scores_run _ (set_cell df c i (Some x')))
      by reflexivity.
    rewrite resolve_set_cell, Hres by assumption. simpl.
    fold df1'. now rewrite Hpop', Harea'. }
  repeat (split; [eassumption|]). assumption.
Qed.


(** C2.  With non-negative weights, raising the raw healthcare capacity of
    one row, every other value kept, never raises the composite score of
    that row; and both scoring calls succeed. *)
Theorem raising_healthcare_never_raises_score
    (self : RiskMap) (df : DataFrame) (p a c : string)
    (b w v : option string) (i : nat) (x x' : R) :
  zip_code_data self = Some df ->
  nonneg_weights (risk_weights self) ->
  has_column df p = true -> resolve df a <> None ->
  c <> p -> c <> a -> b <> Some c -> w <> Some c -> v <> Some c ->
  (i < nrows df)%nat -> cell_at df c i = Some (Some x) -> x <= x' ->
  exists res res' r r',
    snd (calculate_risk_scores self p a b w (Some c) v) = inr res /\
    snd (calculate_risk_scores
           (with_zip_code_data self (set_cell df c i (Some x')))
           p a b w (Some c) v)
      = inr res' /\
    nth_error res i = Some r /\ nth_error res' i = Some r' /\
    risk_score r' <= risk_score r.
Proof.
  intros Hdf Hw Hp Ha Hcp Hca Hb Hwa Hv Hi Hc Hx.
  destruct (scoring_side_by_side self df p a c b w (Some c) v i x x'
              Hdf Hp Ha Hca Hi Hc)
    as (df1 & pop & pop' & area & res & res' & r & r' & Hres & Hpop & Harea
        & Hsame & Hother & Hc1 & Hany & Hrun & Hrun' & Hr & Hr' & Hs & Hs').
  exists res, res', r, r'. repeat (split; [assumption|]).
  rewrite Hs, Hs', (Hother Hcp), !factor_norm_same by assumption.
  apply composite_mono; try assumption; try apply Rle_refl.
  eapply health_norm_anti; eassumption.
Qed.

(** ** Classification *)

(** The bins of [cut] with the engine's edges: a score in (0, 1] falls in
    exactly one bin; 0 and scores outside [0, 1] fall in none. *)
Lemma cut_bins (x : R) :
  (0 < x <= 0.25 -> cut x bins labels = Some Low) /\
  (0.25 < x <= 0.5 -> cut x bins labels = Some Medium) /\
  (0.5 < x <= 0.75 -> cut x bins labels = Some High) /\
  (0.75 < x <= 1 -> cut x bins labels = Some VeryHigh) /\
  (x <= 0 \/ 1 < x -> cut x bins labels = None).
Proof.
  unfold bins, labels; simpl.
  repeat split; intros H;
    repeat match goal with
           | |- context [Rlt_dec ?p ?q] => destruct (Rlt_dec p q)
           | |- context [Rle_dec ?p ?q] => destruct (Rle_dec p q)
           end; try reflexivity; lra.
Qed.

Lemma default_weights_effective (d : option DataFrame) :
  get (risk_weights (init d None)) "population_density" = 0.3.
Proof.
  assert (Hsum : sum (values default_weights) = 1)
    by (unfold sum, default_weights; simpl; lra).
  unfold init, risk_weights. rewrite Hsum.
  destruct (Rlt_dec 0 1); [|lra].
  unfold get; simpl. lra.
Qed.

(** C1, at the input where the code departs from it.  Two areas with
    populations 1000 and 5000, equal areas, no optional factor, default
    weights: the first area scores exactly 0 and gets no category (NaN),
    where the claim puts 0 in the Low bucket; the second scores 0.3 and is
    Medium, as claimed. *)
Theorem zero_score_gets_no_category :
  exists res r0 r1,
    snd (calculate_risk_scores_default (init (Some sample_two_areas) None)) = inr res /\
    nth_error res 0 = Some r0 /\ risk_score r0 = 0 /\ risk_category r0 = None /\
    nth_error res 1 = Some r1 /\ risk_score r1 = 0.3 /\ risk_category r1 = Some Medium.
Proof.
  unfold calculate_risk_scores_default.
  rewrite (calculate_risk_scores_run _ sample_two_areas) by reflexivity.
  cbn [resolve has_column sample_two_areas columns existsb fst String.eqb
       Ascii.eqb Bool.eqb orb getitem lookup].
  destruct (score_rows_spec (risk_weights (init (Some sample_two_areas) None))
              sample_two_areas (density [Some 1000; Some 5000] [Some 1; Some 1])
              (Some "bird_density"%string) (Some "water_proximity"%string)
              (Some "healthcare_capacity"%string) (Some "vulnerability_index"%string))
    as (res & Hrun & _ & Hrow).
  destruct (Hrow 0%nat) as (r0 & Hr0 & _ & Hs0 & Hc0); [simpl; lia|].
  destruct (Hrow 1%nat) as (r1 & Hr1 & _ & Hs1 & Hc1); [simpl; lia|].
  exists res, r0, r1.
  assert (Hd : density [Some 1000; Some 5000] [Some 1; Some 1] = [1000 / 1; 5000 / 1]).
  { unfold density. cbn [series_truediv].
    rewrite !truediv_finite by (try apply in_float_range_small; lra).
    reflexivity. }
  rewrite Hd in Hs0, Hs1.
  assert (Hmin : pd.list_min [1000 / 1; 5000 / 1] = Some 1000).
  { simpl. f_equal. unfold Rmin. destruct (Rle_dec _ _); lra. }
  assert (Hmax : pd.list_max [1000 / 1; 5000 / 1] = Some 5000).
  { simpl. f_equal. unfold Rmax. destruct (Rle_dec _ _); lra. }
  unfold composite in Hs0, Hs1.
  rewrite (min_max_nth _ 0 _ _ Hmin Hmax) in Hs0 by (simpl; lia).
  rewrite (min_max_nth _ 1 _ _ Hmin Hmax) in Hs1 by (simpl; lia).
  cbn [factor_norm health_norm factor has_column sample_two_areas columns existsb
       fst String.eqb Ascii.eqb Bool.eqb orb andb negb nrows repeat nth] in Hs0, Hs1.
  rewrite default_weights_effective in Hs0, Hs1.
  assert (H0 : spread_norm 1000 5000 (1000 / 1) = 0).
  { unfold spread_norm. destruct (Rlt_dec _ _); lra. }
  assert (H1 : spread_norm 1000 5000 (5000 / 1) = 1).
  { unfold spread_norm. destruct (Rlt_dec _ _); [field | lra]. }
  rewrite H0 in Hs0. rewrite H1 in Hs1.
  assert (Hz : risk_score r0 = 0) by lra.
  assert (Ho : risk_score r1 = 0.3) by lra.
  rewrite Hz in Hc0. rewrite Ho in Hc1.
  repeat split; try assumption.
  - rewrite Hc0. apply cut_bins. lra.
  - rewrite Hc1. apply cut_bins. lra.
Qed.

(** ** Closed instances of the monotonicity statements *)





Lemma raising_healthcare_never_raises_score_witness :
  exists res res' r r',
    snd (calculate_risk_scores_default (init (Some sample_table) None)) = inr res /\
    snd (calculate_risk_scores_default
           (with_zip_code_data (init (Some sample_table) None)
              (set_cell sample_table "healthcare_capacity" 0 (Some 0.5))))
      = inr res' /\
    nth_error res 0 = Some r /\ nth_error res' 0 = Some r' /\
    risk_score r' <= risk_score r.
Proof.
  apply (raising_healthcare_never_raises_score
           (init (Some sample_table) None) sample_table
           "population" "area_km2" "healthcare_capacity"
           (Some "bird_density"%string) (Some "water_proximity"%string)
           (Some "vulnerability_index"%string)
           0%nat 0 0.5).
  - reflexivity.
  - apply init_nonneg_weights. intros x Hx. discriminate Hx.
  - reflexivity.
  - unfold resolve. simpl. discriminate.
  - discriminate.
  - discriminate.
  - discriminate.
  - discriminate.
  - discriminate.
  - simpl. lia.
  - reflexivity.
  - lra.
Defined.

(** * Further properties of the engine *)

(** ** The normaliser, entry by entry *)

Lemma fillna_map_nth_error (f : cell -> cell) (s : Series) (i : nat) (c : cell) :
  nth_error s i = Some c ->
  nth_error (pd.fillna 0 (map f s)) i
  = Some (match f c with Some y => y | None => 0 end).
Proof.
  intros H. unfold pd.fillna. rewrite map_map, nth_error_map.
  unfold Series, cell in *. now rewrite H.
Qed.

Lemma list_min_unique (l : list R) (lo : R) :
  In lo l -> (forall x, In x l -> lo <= x) -> pd.list_min l = Some lo.
Proof.
  intros Hin Hle. destruct (pd.list_min l) as [m|] eqn:E.
  - f_equal. apply Rle_antisym.
    + eapply list_min_le; eassumption.
    + apply Hle. now apply list_min_In.
  - apply list_min_None in E. subst l. contradiction.
Qed.

Lemma list_max_unique (l : list R) (hi : R) :
  In hi l -> (forall x, In x l -> x <= hi) -> pd.list_max l = Some hi.
Proof.
  intros Hin Hle. destruct (pd.list_max l) as [m|] eqn:E.
  - f_equal. apply Rle_antisym.
    + apply Hle. now apply list_max_In.
    + eapply list_max_ge; eassumption.
  - apply list_max_None in E. subst l. contradiction.
Qed.

Lemma min_unique (s : Series) (lo : R) :
  In (Some lo) s -> (forall x, In (Some x) s -> lo <= x) -> pd.min s = Some lo.
Proof.
  intros Hin Hle. apply list_min_unique.
  - now apply dropna_In.
  - intros x Hx. apply Hle. now apply dropna_In.
Qed.

Lemma max_unique (s : Series) (hi : R) :
  In (Some hi) s -> (forall x, In (Some x) s -> x <= hi) -> pd.max s = Some hi.
Proof.
  intros Hin Hle. apply list_max_unique.
  - now apply dropna_In.
  - intros x Hx. apply Hle. now apply dropna_In.
Qed.

Lemma gt0_true (d : R) : 0 < d -> pd.gt0 (Some d) = true.
Proof. intros H. simpl. destruct (Rlt_dec 0 d); [reflexivity | contradiction]. Qed.

(** With spread, the [min_max] image of each entry. *)
Lemma min_max_entry (s : Series) (lo hi : R) (i : nat) (c : cell) :
  pd.min s = Some lo -> pd.max s = Some hi -> lo < hi ->
  nth_error s i = Some c ->
  exists out,
    normalize_risk_factor s "min_max" = inr out /\
    nth_error out i
    = Some (match c with Some x => (x - lo) / (hi - lo) | None => 0 end).
Proof.
  intros Hlo Hhi Hlt Hc. rewrite min_max_unfold, Hlo, Hhi.
  change (pd.sub (Some hi) (Some lo)) with (Some (hi - lo)).
  rewrite gt0_true by lra. eexists. split; [reflexivity|].
  unfold pd.div_scalar, pd.sub_scalar. rewrite map_map.
  rewrite (fillna_map_nth_error _ _ _ _ Hc). now destruct c.
Qed.

(** X1.  Under [min_max], a series with two different values sends its least
    value to 0, its greatest value to 1 and every NaN to 0. *)
Theorem min_max_endpoints (s : Series) (lo hi : R) :
  In (Some lo) s -> (forall x, In (Some x) s -> lo <= x) ->
  In (Some hi) s -> (forall x, In (Some x) s -> x <= hi) ->
  lo < hi ->
  exists out,
    normalize_risk_factor s "min_max" = inr out /\
    forall i,
      (nth_error s i = Some (Some lo) -> nth_error out i = Some 0) /\
      (nth_error s i = Some (Some hi) -> nth_error out i = Some 1) /\
      (nth_error s i = Some None -> nth_error out i = Some 0).
Proof.
  intros Hlo Hlo' Hhi Hhi' Hlt.
  pose proof (min_unique s lo Hlo Hlo') as Hmin.
  pose proof (max_unique s hi Hhi Hhi') as Hmax.
  destruct (In_nth_error _ _ Hlo) as (i0 & Hi0).
  destruct (min_max_entry s lo hi i0 _ Hmin Hmax Hlt Hi0) as (out & Hout & _).
  exists out. split; [assumption|]. intros i.
  repeat split; intros Hi;
    destruct (min_max_entry s lo hi i _ Hmin Hmax Hlt Hi) as (out' & Hout' & Hn);
    rewrite Hout in Hout'; injection Hout' as <-; rewrite Hn; f_equal.
  - unfold Rdiv. ring.
  - field. lra.
Qed.

Lemma min_max_endpoints_witness :
  exists out,
    normalize_risk_factor [Some 4; None; Some 1; Some 9] "min_max" = inr out /\
    forall i,
      (nth_error [Some 4; None; Some 1; Some 9] i = Some (Some 1) ->
       nth_error out i = Some 0) /\
      (nth_error [Some 4; None; Some 1; Some 9] i = Some (Some 9) ->
       nth_error out i = Some 1) /\
      (nth_error [Some 4; None; Some 1; Some 9] i = Some None ->
       nth_error out i = Some 0).
Proof.
  apply (min_max_endpoints [Some 4; None; Some 1; Some 9] 1 9).
  - simpl. auto.
  - intros x [H|[H|[H|[H|[]]]]]; try discriminate H; injection H as <-; lra.
  - simpl. auto.
  - intros x [H|[H|[H|[H|[]]]]]; try discriminate H; injection H as <-; lra.
  - lra.
Defined.

(** ** The standard deviation and the z-score branch *)

Lemma exp_le (x y : R) : x <= y -> exp x <= exp y.
Proof.
  intros [H | ->]; [left; now apply exp_increasing | apply Rle_refl].
Qed.

Lemma sigmoid_mono (z z' : R) :
  z <= z' -> 1 / (1 + exp (- z)) <= 1 / (1 + exp (- z')).
Proof.
  intros H. pose proof (exp_pos (- z)). pose proof (exp_pos (- z')).
  assert (exp (- z') <= exp (- z)) by (apply exp_le; lra).
  apply div_le_cross; lra.
Qed.


(** With a positive standard deviation, the [z_score] image of each entry. *)
Lemma z_score_entry (s : Series) (mu sd : R) (i : nat) (c : cell) :
  pd.mean s = Some mu -> pd.std s = Some sd -> 0 < sd ->
  nth_error s i = Some c ->
  exists out,
    normalize_risk_factor s "z_score" = inr out /\
    nth_error out i
    = Some (match c with
            | Some x => 1 / (1 + exp (- ((x - mu) / sd)))
            | None => 0
            end).
Proof.
  intros Hmu Hsd Hpos Hc. rewrite z_score_unfold, Hmu, Hsd.
  rewrite gt0_true by assumption. eexists. split; [reflexivity|].
  unfold pd.sigmoid, pd.div_scalar, pd.sub_scalar. rewrite !map_map.
  rewrite (fillna_map_nth_error _ _ _ _ Hc). now destruct c.
Qed.

Lemma std_Some_mean (s : Series) (sd : R) :
  pd.std s = Some sd -> exists mu, pd.mean s = Some mu.
Proof.
  unfold pd.std, pd.mean. destruct (pd.dropna s) as [|a [|b l]];
    try discriminate. intros _. eexists. reflexivity.
Qed.

Lemma fillna_full_nth_error (v w : R) (s : Series) (i : nat) (c : cell) :
  nth_error s i = Some c -> nth_error (pd.fillna w (pd.full v s)) i = Some v.
Proof.
  intros H. unfold pd.fillna, pd.full. rewrite map_map, nth_error_map.
  unfold Series, cell in *. now rewrite H.
Qed.




(** X4.  Both methods keep the order of the values: of two entries, the one with
    the larger raw value never gets the smaller normalised value. *)
Theorem normalize_preserves_order
    (s : Series) (method : string) (i j : nat) (x y : R) :
  method = "min_max"%string \/ method = "z_score"%string ->
  nth_error s i = Some (Some x) -> nth_error s j = Some (Some y) -> x <= y ->
  exists out u v,
    normalize_risk_factor s method = inr out /\
    nth_error out i = Some u /\ nth_error out j = Some v /\ u <= v.
Proof.
  intros [-> | ->] Hi Hj Hxy.
  - destruct (pd.gt0 (pd.sub (pd.max s) (pd.min s))) eqn:G.
    + apply gt0_Some in G as (d & Hd & Hpos).
      apply sub_Some in Hd as (M & m & HM & Hm & ->).
      destruct (min_max_entry s m M i _ Hm HM ltac:(lra) Hi) as (out & Hout & Hu).
      destruct (min_max_entry s m M j _ Hm HM ltac:(lra) Hj) as (out' & Hout' & Hv).
      rewrite Hout in Hout'. injection Hout' as <-.
      exists out. do 2 eexists. repeat split; try eassumption.
      apply div_le_cross; nra.
    + rewrite min_max_unfold, G. eexists. exists 0, 0.
      split; [reflexivity|].
      rewrite (fillna_full_nth_error _ _ _ _ _ Hi),
              (fillna_full_nth_error _ _ _ _ _ Hj).
      repeat split. lra.
  - destruct (pd.gt0 (pd.std s)) eqn:G.
    + apply gt0_Some in G as (sd & Hsd & Hpos).
      destruct (std_Some_mean _ _ Hsd) as (mu & Hmu).
      destruct (z_score_entry s mu sd i _ Hmu Hsd Hpos Hi) as (out & Hout & Hu).
      destruct (z_score_entry s mu sd j _ Hmu Hsd Hpos Hj) as (out' & Hout' & Hv).
      rewrite Hout in Hout'. injection Hout' as <-.
      exists out. do 2 eexists. repeat split; try eassumption.
      apply sigmoid_mono. apply div_le_cross; nra.
    + rewrite z_score_unfold, G. eexists. exists 0.5, 0.5.
      split; [reflexivity|].
      rewrite (fillna_full_nth_error _ _ _ _ _ Hi),
              (fillna_full_nth_error _ _ _ _ _ Hj).
      repeat split. lra.
Qed.

Lemma normalize_preserves_order_witness :
  exists out u v,
    normalize_risk_factor [Some 3; None; Some 8; Some 5] "z_score" = inr out /\
    nth_error out 3 = Some u /\ nth_error out 2 = Some v /\ u <= v.
Proof.
  apply (normalize_preserves_order [Some 3; None; Some 8; Some 5] "z_score"
           3 2 5 8).
  - right; reflexivity.
  - reflexivity.
  - reflexivity.
  - lra.
Defined.

(** X5.  A method name other than ['min_max'] and ['z_score'] raises
    [ValueError]; run on a series object, the call then leaves the store as
    it found it.  These two names are the only ones that give a result. *)
Theorem normalize_risk_factor_unknown_method
    (h : store) (series : ref) (s : Series) (method : string) :
  deref h series = Some s ->
  ((exists out, normalize_risk_factor s method = inr out) <->
   method = "min_max"%string \/ method = "z_score"%string) /\
  (method <> "min_max"%string -> method <> "z_score"%string ->
   exists msg,
     normalize_risk_factor s method = inl (ValueError msg) /\
     normalize_risk_factor_call series method h = Some (h, inl (ValueError msg))).
Proof.
  intros H. unfold normalize_risk_factor, normalize_risk_factor_call.
  destruct (String.eqb_spec method "min_max") as [->|Hmm].
  - split; [split; eauto | congruence].
  - destruct (String.eqb_spec method "z_score") as [->|Hzs].
    + split; [split; eauto | congruence].
    + split; [|intros _ _; eexists; split; reflexivity].
      split; [intros (out & Hout); discriminate | intros [?|?]; congruence].
Qed.

Lemma normalize_risk_factor_unknown_method_witness :
  ((exists out, normalize_risk_factor [Some 1; Some 2] "robust" = inr out) <->
   "robust"%string = "min_max"%string \/ "robust"%string = "z_score"%string) /\
  ("robust"%string <> "min_max"%string -> "robust"%string <> "z_score"%string ->
   exists msg,
     normalize_risk_factor [Some 1; Some 2] "robust" = inl (ValueError msg) /\
     normalize_risk_factor_call 0%nat "robust" [[Some 1; Some 2]]
       = Some ([[Some 1; Some 2]], inl (ValueError msg))).
Proof.
  apply (normalize_risk_factor_unknown_method [[Some 1; Some 2]] 0%nat).
  reflexivity.
Defined.

(** ** A scoring call, from the table to the rows *)

(** What a successful scoring call read and what it left behind. *)
Lemma calculate_risk_scores_success (self self1 : RiskMap) (res : Results)
    (p a : string) (b w h v : option string) :
  calculate_risk_scores self p a b w h v = (self1, inr res) ->
  exists df df1 pop area,
    zip_code_data self = Some df /\ resolve df a = Some df1 /\
    getitem df1 p = Some pop /\ getitem df1 a = Some area /\
    score_rows (risk_weights self) df1 (density pop area) b w h v = inr res /\
    self1 = {| zip_code_data := Some df1;
               risk_scores := Some res;
               risk_map_gdf := Some (df1, res);
               risk_weights := risk_weights self |}.
Proof.
  unfold calculate_risk_scores, calculate_population_density.
  destruct (zip_code_data self) as [df|] eqn:Hdf; [|discriminate].
  destruct (has_column df a) eqn:Ha.
  - cbn [negb]. destruct (getitem df p) as [pop|] eqn:Hp; [|discriminate].
    destruct (getitem df a) as [area|] eqn:Har; [|discriminate].
    rewrite Hdf. fold (density pop area).
    destruct (score_rows _ _ _ _ _ _ _) as [e|res'] eqn:Hs; [discriminate|].
    intros H; injection H as <- <-.
    exists df, df, pop, area. repeat split; try assumption.
    unfold resolve. now rewrite Ha.
  - cbn [negb].
    destruct (geometry df) as [gdf|] eqn:Hg;
      [|destruct (to_crs_error df); discriminate].
    set (df1 := add_column df a _).
    destruct (getitem df1 p) as [pop|] eqn:Hp; [|discriminate].
    destruct (getitem df1 a) as [area|] eqn:Har; [|discriminate].
    cbn [zip_code_data with_zip_code_data risk_weights]. fold (density pop area).
    destruct (score_rows _ _ _ _ _ _ _) as [e|res'] eqn:Hs; [discriminate|].
    intros H; injection H as <- <-.
    exists df, df1, pop, area. repeat split; try assumption.
    unfold resolve. now rewrite Ha, Hg.
Qed.

Lemma resolve_has_column (df df1 : DataFrame) (a : string) :
  resolve df a = Some df1 -> has_column df1 a = true.
Proof.
  intros H. destruct (resolve_has_area _ _ _ H) as (area & Harea).
  apply has_column_getitem. congruence.
Qed.

Lemma resolve_resolved (df df1 : DataFrame) (a : string) :
  resolve df a = Some df1 -> resolve df1 a = Some df1.
Proof.
  intros H. unfold resolve at 1. now rewrite (resolve_has_column _ _ _ H).
Qed.

(** The fields of row [i] of a scored table. *)
Lemma score_rows_fields (weights : dict) (df : DataFrame) (pop_density : list R)
    (b w h v : option string) (res : Results) (i : nat) (r : ResultRow) :
  score_rows weights df pop_density b w h v = inr res ->
  nth_error res i = Some r ->
  (i < nrows df)%nat /\ row r = i /\
  population_density r = nth i pop_density 0 /\
  population_density_norm r = nth i (min_max pop_density) 0 /\
  bird_density r = option_map (fun c => nth i c 0) (factor df b) /\
  bird_density_norm r = nth i (factor_norm df b) 0 /\
  water_proximity r = option_map (fun c => nth i c 0) (factor df w) /\
  water_proximity_norm r = nth i (factor_norm df w) 0 /\
  healthcare_capacity r = option_map (fun c => nth i c 0) (factor df h) /\
  healthcare_capacity_norm r = nth i (health_norm df h) 0 /\
  vulnerability_index r = option_map (fun c => nth i c 0) (factor df v) /\
  vulnerability_index_norm r = nth i (factor_norm df v) 0 /\
  risk_score r =
    population_density_norm r * get weights "population_density" +
    bird_density_norm r * get weights "bird_density" +
    water_proximity_norm r * get weights "water_proximity" +
    healthcare_capacity_norm r * get weights "healthcare_capacity" +
    vulnerability_index_norm r * get weights "vulnerability_index" /\
  risk_category r = cut (risk_score r) bins labels.
Proof.
  unfold score_rows, factor_norm, health_norm.
  destruct (factor df b) as [fb|], (factor df w) as [fw|],
           (factor df h) as [fh|], (factor df v) as [fv|];
    repeat (rewrite normalize_min_max || (progress (cbv beta iota delta [ebind])));
    intros Hres Hr; injection Hres as <-;
    rewrite nth_error_map, nth_error_seq in Hr;
    (destruct (Nat.ltb_spec i (nrows df)) as [Hi|Hi]; [|discriminate]);
    cbn [option_map Nat.add] in Hr; injection Hr as <-;
    (split; [assumption|]); cbn; unfold bins, labels; repeat split.
Qed.

Lemma series_truediv_length (p a : Series) :
  List.length (series_truediv p a) = Nat.min (List.length p) (List.length a).
Proof.
  revert a; induction p as [|x p IH]; intros [|y a]; simpl; auto.
Qed.

(** X6.  Population density, row by row: population over area; 0 where the area
    is zero (the quotient is infinite, or NaN for 0/0), where the quotient
    leaves the float range (it is infinite too), and where either value is
    missing.  No row makes the call fail, and the table is left as it is
    when it has the area column. *)
Theorem population_density_values
    (self : RiskMap) (df : DataFrame) (p a : string) (pop area : Series) :
  zip_code_data self = Some df ->
  getitem df p = Some pop -> getitem df a = Some area ->
  exists d,
    calculate_population_density self p a = (self, inr d) /\
    List.length d = Nat.min (List.length pop) (List.length area) /\
    forall i,
      nth i d 0
      = match nth i pop None, nth i area None with
        | Some x, Some y =>
            if Req_dec_T y 0 then 0
            else if Rle_dec float_overflow (Rabs (x / y)) then 0
            else x / y
        | _, _ => 0
        end.
Proof.
  intros Hdf Hp Ha.
  assert (Hc : has_column df a = true) by (apply has_column_getitem; congruence).
  exists (density pop area). split; [|split].
  - unfold calculate_population_density. rewrite Hdf, Hc. cbn [negb].
    now rewrite Hp, Ha.
  - unfold density. now rewrite fillna_length, length_map, series_truediv_length.
  - intros i. rewrite density_nth. unfold cell_density, truediv.
    destruct (nth i pop None) as [x|], (nth i area None) as [y|]; try reflexivity.
    destruct (Req_dec_T y 0).
    + now destruct (Req_dec_T x 0).
    + now destruct (Rle_dec float_overflow (Rabs (x / y))).
Qed.

Lemma population_density_values_witness :
  exists d,
    calculate_population_density (init (Some sample_table) None)
      "population" "area_km2"
    = (init (Some sample_table) None, inr d) /\
    List.length d = Nat.min 2 2 /\
    forall i,
      nth i d 0
      = match nth i [Some 1000; Some 5000] None, nth i [Some 1; Some 2] None with
        | Some x, Some y =>
            if Req_dec_T y 0 then 0
            else if Rle_dec float_overflow (Rabs (x / y)) then 0
            else x / y
        | _, _ => 0
        end.
Proof.
  apply (population_density_values (init (Some sample_table) None) sample_table
           "population" "area_km2" [Some 1000; Some 5000] [Some 1; Some 2]);
    reflexivity.
Defined.

Lemma getitem_add_column_other (df : DataFrame) (a c : string) (s : Series) :
  has_column df c = false -> c <> a -> getitem (add_column df a s) c = None.
Proof.
  unfold has_column, getitem, add_column; simpl. intros H Hne.
  induction (columns df) as [|[k x] l IH]; simpl in *.
  - destruct (String.eqb_spec c a); [contradiction | reflexivity].
  - destruct (String.eqb c k); simpl in H; [discriminate | auto].
Qed.

(** X7.  A failing call is not always without effect on the table: when the area
    column is derived from geometry (geometry with a CRS, which [to_crs]
    reprojects) and the population column is missing, the density call and
    the scoring call raise [KeyError] after the derived area column has been
    stored in the engine's table. *)
Theorem failing_call_can_add_area_column
    (self : RiskMap) (df : DataFrame) (gdf : list Geometry) (p a : string)
    (b w h v : option string) :
  zip_code_data self = Some df ->
  has_column df a = false -> geometry df = Some gdf ->
  has_column df p = false -> p <> a ->
  let df1 := add_column df a
               (of_values (map (fun g => mercator_area g / 1e6) gdf)) in
  calculate_population_density self p a
    = (with_zip_code_data self df1, inl (KeyError p)) /\
  calculate_risk_scores self p a b w h v
    = (with_zip_code_data self df1, inl (KeyError p)) /\
  has_column df1 a = true /\ Some df1 <> Some df.
Proof.
  intros Hdf Ha Hg Hp Hne df1.
  assert (Hd : calculate_population_density self p a
               = (with_zip_code_data self df1, inl (KeyError p))).
  { unfold calculate_population_density. rewrite Hdf, Ha, Hg. cbn [negb].
    now rewrite (getitem_add_column_other df a p _ Hp Hne). }
  split; [exact Hd|]. split; [|split].
  - unfold calculate_risk_scores. rewrite Hdf, Hd. reflexivity.
  - apply has_column_getitem. unfold df1.
    rewrite getitem_add_column_new by assumption. discriminate.
  - intros Heq. injection Heq as Heq.
    apply (f_equal (fun d => has_column d a)) in Heq.
    unfold df1 in Heq. rewrite Ha in Heq.
    assert (Ht : has_column
                   (add_column df a
                      (of_values (map (fun g => mercator_area g / 1e6) gdf))) a
                 = true).
    { apply has_column_getitem. rewrite getitem_add_column_new by assumption.
      discriminate. }
    congruence.
Qed.

Lemma failing_call_can_add_area_column_witness :
  let df := {| nrows := 1; columns := [];
               geometry := Some [ {| mercator_area := 2e6 |} ];
               to_crs_error := None |} in
  let df1 := add_column df "area_km2"
               (of_values (map (fun g => mercator_area g / 1e6)
                             [ {| mercator_area := 2e6 |} ])) in
  calculate_population_density sample_no_population "population" "area_km2"
    = (with_zip_code_data sample_no_population df1, inl (KeyError "population")) /\
  calculate_risk_scores_default sample_no_population
    = (with_zip_code_data sample_no_population df1, inl (KeyError "population")) /\
  has_column df1 "area_km2" = true /\ Some df1 <> Some df.
Proof.
  intros df df1.
  apply (failing_call_can_add_area_column sample_no_population df
           [ {| mercator_area := 2e6 |} ] "population" "area_km2").
  - reflexivity.
  - reflexivity.
  - reflexivity.
  - reflexivity.
  - discriminate.
Defined.



(** ** When scoring succeeds, and what it leaves behind *)

Lemma calculate_risk_scores_ok (self : RiskMap) (df df1 : DataFrame)
    (pop area : Series) (res : Results) (p a : string) (b w h v : option string) :
  zip_code_data self = Some df -> resolve df a = Some df1 ->
  getitem df1 p = Some pop -> getitem df1 a = Some area ->
  score_rows (risk_weights self) df1 (density pop area) b w h v = inr res ->
  calculate_risk_scores self p a b w h v
  = ({| zip_code_data := Some df1;
        risk_scores := Some res;
        risk_map_gdf := Some (df1, res);
        risk_weights := risk_weights self |}, inr res).
Proof.
  intros Hdf Hres Hp Ha Hs.
  unfold calculate_risk_scores, calculate_population_density. rewrite Hdf.
  unfold resolve in Hres. destruct (has_column df a); cbn [negb].
  - injection Hres as <-. rewrite Hp, Ha, Hdf. fold (density pop area).
    now rewrite Hs.
  - destruct (geometry df) as [gdf|]; [|discriminate]. injection Hres as Hres.
    rewrite Hres, Hp, Ha.
    cbn [zip_code_data with_zip_code_data risk_weights]. fold (density pop area).
    now rewrite Hs.
Qed.

Lemma has_column_add_column (df : DataFrame) (a c : string) (s : Series) :
  has_column (add_column df a s) c = has_column df c || String.eqb c a.
Proof.
  unfold has_column, add_column; simpl. rewrite existsb_app. simpl.
  now rewrite orb_false_r.
Qed.

(** The conditions on the table under which the area resolves and the
    population column is found. *)
Lemma scoring_conditions (df : DataFrame) (p a : string) :
  (exists df1 pop, resolve df a = Some df1 /\ getitem df1 p = Some pop) <->
  (has_column df a = true \/ geometry df <> None) /\
  (has_column df p = true \/ p = a).
Proof.
  unfold resolve. split.
  - intros (df1 & pop & Hres & Hp).
    assert (Hc : has_column df1 p = true)
      by (apply has_column_getitem; congruence).
    destruct (has_column df a) eqn:Ha.
    + injection Hres as <-. auto.
    + destruct (geometry df) as [gdf|]; [|discriminate].
      injection Hres as <-. rewrite has_column_add_column in Hc.
      split; [right; discriminate|].
      apply orb_true_iff in Hc as [Hc|Hc]; [auto|].
      right. now apply String.eqb_eq.
  - intros [Harea Hpop].
    assert (Hsome : forall d, has_column d p = true -> exists pop, getitem d p = Some pop).
    { intros d Hd. apply has_column_getitem in Hd.
      destruct (getitem d p); [eauto | congruence]. }
    destruct (has_column df a) eqn:Ha.
    + destruct Hpop as [Hpop | ->].
      * destruct (Hsome df Hpop) as (pop & Hp). eauto.
      * destruct (Hsome df Ha) as (pop & Hp). eauto.
    + destruct Harea as [Harea|Harea]; [discriminate|].
      destruct (geometry df) as [gdf|]; [|congruence].
      eexists. 
      destruct (Hsome (add_column df a
                         (of_values (map (fun g => mercator_area g / 1e6) gdf))))
        as (pop & Hp).
      { rewrite has_column_add_column. apply orb_true_iff.
        destruct Hpop as [Hpop | ->]; [auto | right; apply String.eqb_refl]. }
      eauto.
Qed.

(** X8.  A scoring call returns a result table exactly when a table is loaded,
    its area column is present or can be derived from geometry with a CRS,
    and its population column is present.  When it fails, it is with
    [KeyError] on the population column, or with the engine left as it was
    and the [ValueError] of a missing table, or the exception of an
    unresolved area: the one [to_crs] raises on geometry it cannot
    reproject, else the [ValueError] that names the area column. *)
Theorem calculate_risk_scores_outcome
    (self : RiskMap) (p a : string) (b w h v : option string) :
  ((exists self1 res, calculate_risk_scores self p a b w h v = (self1, inr res))
   <->
   exists df,
     zip_code_data self = Some df /\
     (has_column df a = true \/ geometry df <> None) /\
     (has_column df p = true \/ p = a))
  /\
  (forall self1 e,
     calculate_risk_scores self p a b w h v = (self1, inl e) ->
     (self1 = self /\
      ((zip_code_data self = None /\ e = no_data) \/
       exists df, zip_code_data self = Some df /\
                  has_column df a = false /\ geometry df = None /\
                  e = area_unresolved df a))
     \/ e = KeyError p).
Proof.
  split; [split|].
  - intros (self1 & res & Hrun).
    destruct (calculate_risk_scores_success _ _ _ _ _ _ _ _ _ Hrun)
      as (df & df1 & pop & area & Hdf & Hres & Hp & _).
    exists df. split; [assumption|]. apply scoring_conditions. eauto.
  - intros (df & Hdf & Hc).
    apply scoring_conditions in Hc as (df1 & pop & Hres & Hp).
    destruct (resolve_has_area _ _ _ Hres) as (area & Ha).
    destruct (score_rows_spec (risk_weights self) df1 (density pop area) b w h v)
      as (res & Hs & _).
    do 2 eexists. eapply calculate_risk_scores_ok; eassumption.
  - intros self1 e.
    destruct (zip_code_data self) as [df|] eqn:Hdf.
    + destruct (has_column df a) eqn:Ha.
      * unfold calculate_risk_scores, calculate_population_density.
        rewrite Hdf, Ha. cbn [negb].
        destruct (getitem df p) as [pop|];
          [|intros H; injection H as <- <-; now right].
        destruct (getitem df a) as [area|] eqn:Harea.
        -- rewrite Hdf.
           destruct (score_rows_spec (risk_weights self) df
                       (pd.fillna 0 (map (replace_inf 0) (series_truediv pop area)))
                       b w h v) as (res & -> & _).
           discriminate.
        -- apply has_column_getitem in Ha. congruence.
      * destruct (geometry df) as [gdf|] eqn:Hg.
        -- unfold calculate_risk_scores, calculate_population_density.
           rewrite Hdf, Ha, Hg. cbn [negb].
           destruct (getitem _ p) as [pop|];
             [|intros H; injection H as <- <-; now right].
           rewrite getitem_add_column_new by assumption.
           cbn [zip_code_data with_zip_code_data risk_weights].
           match goal with
           | |- context [score_rows ?ws ?d ?pd b w h v] =>
               destruct (score_rows_spec ws d pd b w h v) as (res & -> & _)
           end.
           discriminate.
        -- unfold calculate_risk_scores.
           rewrite Hdf, (calculate_population_density_unresolved self df p a Hdf Ha Hg).
           intros H; injection H as <- <-. left.
           split; [reflexivity|]. right. exists df. auto.
    + unfold calculate_risk_scores. rewrite Hdf.
      intros H; injection H as <- <-. left.
      split; [reflexivity|]. now left.
Qed.

Lemma get_high_risk_zips_from_scores (self : RiskMap) (scores : Results)
    (t : R) (n : option Z) :
  risk_scores self = Some scores ->
  exists out,
    get_high_risk_zips self t n = (self, inr out) /\
    forall r, In r out -> In r scores.
Proof.
  intros H. unfold get_high_risk_zips. rewrite H.
  eexists. split; [reflexivity|]. intros r Hr.
  apply (proj1 (sort_values_desc_In _ _)) in Hr.
  destruct (truthy n).
  - unfold nlargest in Hr. apply firstn_incl in Hr.
    now apply (proj1 (sort_values_desc_In _ _)) in Hr.
  - now apply filter_In in Hr.
Qed.

(** X9.  After a scoring call on a table whose area and population resolve, the
    engine holds exactly the table returned: one row per area, numbered in
    table order, cached together with the table; the weights are untouched,
    and every ranking query then succeeds and returns rows of that table
    only. *)
Theorem scoring_enables_ranking
    (self : RiskMap) (df : DataFrame) (p a : string) (b w h v : option string) :
  zip_code_data self = Some df ->
  has_column df a = true \/ geometry df <> None ->
  has_column df p = true \/ p = a ->
  exists self1 res df1,
    calculate_risk_scores self p a b w h v = (self1, inr res) /\
    zip_code_data self1 = Some df1 /\ nrows df1 = nrows df /\
    risk_scores self1 = Some res /\
    risk_map_gdf self1 = Some (df1, res) /\
    risk_weights self1 = risk_weights self /\
    List.length res = nrows df /\
    (forall i r, nth_error res i = Some r -> row r = i) /\
    forall t n, exists out,
      get_high_risk_zips self1 t n = (self1, inr out) /\
      forall r, In r out -> In r res.
Proof.
  intros Hdf Harea Hpop.
  destruct (proj2 (scoring_conditions df p a) (conj Harea Hpop))
    as (df1 & pop & Hres & Hp).
  destruct (resolve_has_area _ _ _ Hres) as (area & Ha).
  destruct (score_rows_spec (risk_weights self) df1 (density pop area) b w h v)
    as (res & Hs & Hlen & _).
  pose proof (calculate_risk_scores_ok self df df1 pop area res p a b w h v
                Hdf Hres Hp Ha Hs) as Hrun.
  pose proof (resolve_nrows _ _ _ Hres) as Hrows.
  do 3 eexists. split; [exact Hrun|].
  repeat (split; [reflexivity || congruence|]).
  split.
  - intros i r Hr.
    now destruct (score_rows_fields _ _ _ _ _ _ _ _ _ _ Hs Hr) as (_ & Hrow & _).
  - intros t n. now apply get_high_risk_zips_from_scores.
Qed.

Lemma scoring_enables_ranking_witness :
  exists self1 res df1,
    calculate_risk_scores_default (init (Some sample_table) None)
      = (self1, inr res) /\
    zip_code_data self1 = Some df1 /\ nrows df1 = nrows sample_table /\
    risk_scores self1 = Some res /\
    risk_map_gdf self1 = Some (df1, res) /\
    risk_weights self1 = risk_weights (init (Some sample_table) None) /\
    List.length res = nrows sample_table /\
    (forall i r, nth_error res i = Some r -> row r = i) /\
    forall t n, exists out,
      get_high_risk_zips self1 t n = (self1, inr out) /\
      forall r, In r out -> In r res.
Proof.
  apply (scoring_enables_ranking (init (Some sample_table) None) sample_table
           "population" "area_km2").
  - reflexivity.
  - left; reflexivity.
  - left; reflexivity.
Defined.

(** X10.  Scoring is repeatable: a second call with the same arguments, on the
    engine the first call left, returns the same table and leaves the
    engine as it is; also when the first call had to derive the area column
    from geometry, which takes geometry with a CRS ([geometry] holds no
    other). *)
Theorem calculate_risk_scores_twice
    (self : RiskMap) (df : DataFrame) (p a : string) (b w h v : option string) :
  zip_code_data self = Some df ->
  has_column df a = true \/ geometry df <> None ->
  has_column df p = true \/ p = a ->
  exists self1 res,
    calculate_risk_scores self p a b w h v = (self1, inr res) /\
    calculate_risk_scores self1 p a b w h v = (self1, inr res).
Proof.
  intros Hdf Harea Hpop.
  destruct (proj2 (scoring_conditions df p a) (conj Harea Hpop))
    as (df1 & pop & Hres & Hp).
  destruct (resolve_has_area _ _ _ Hres) as (area & Ha).
  destruct (score_rows_spec (risk_weights self) df1 (density pop area) b w h v)
    as (res & Hs & _).
  set (self1 := {| zip_code_data := Some df1;
                   risk_scores := Some res;
                   risk_map_gdf := Some (df1, res);
                   risk_weights := risk_weights self |}).
  exists self1, res. split.
  - eapply calculate_risk_scores_ok; eassumption.
  - exact (calculate_risk_scores_ok self1 df1 df1 pop area res p a b w h v
             eq_refl (resolve_resolved _ _ _ Hres) Hp Ha Hs).
Qed.

Lemma calculate_risk_scores_twice_witness :
  exists self1 res,
    calculate_risk_scores (init (Some sample_geo_table) None)
      "population" "area_km2" None None None None = (self1, inr res) /\
    calculate_risk_scores self1
      "population" "area_km2" None None None None = (self1, inr res).
Proof.
  apply (calculate_risk_scores_twice (init (Some sample_geo_table) None)
           sample_geo_table).
  - reflexivity.
  - right; discriminate.
  - left; reflexivity.
Defined.

(** ** The rows of a result table *)

Lemma nth_Forall {A} (P : A -> Prop) (l : list A) (d : A) (i : nat) :
  Forall P l -> P d -> P (nth i l d).
Proof.
  intros Hl Hd. destruct (nth_in_or_default i l d) as [H | ->]; [|assumption].
  now apply (proj1 (Forall_forall _ _) Hl).
Qed.

Lemma in_unit_0 : in_unit 0.
Proof. unfold in_unit; lra. Qed.

Lemma min_max_nth_in_unit (l : list R) (i : nat) : in_unit (nth i (min_max l) 0).
Proof.
  apply nth_Forall; [|apply in_unit_0].
  apply (min_max_in_unit (of_values l)). apply normalize_min_max.
Qed.

Lemma factor_norm_in_unit (df : DataFrame) (o : option string) (i : nat) :
  in_unit (nth i (factor_norm df o) 0).
Proof.
  unfold factor_norm. destruct (factor df o); [apply min_max_nth_in_unit|].
  apply nth_Forall; [apply repeat_in_unit|]; apply in_unit_0.
Qed.

Lemma health_norm_in_unit (df : DataFrame) (o : option string) (i : nat) :
  in_unit (nth i (health_norm df o) 0).
Proof.
  unfold health_norm. destruct (factor df o) as [f|].
  - apply nth_Forall; [|apply in_unit_0].
    apply Forall_map. eapply Forall_impl;
      [|apply (min_max_in_unit (of_values f)), normalize_min_max].
    unfold in_unit. intros; lra.
  - apply nth_Forall; [apply repeat_in_unit|]; apply in_unit_0.
Qed.

Lemma score_rows_row (weights : dict) (df : DataFrame) (pop_density : list R)
    (b w h v : option string) (res : Results) (r : ResultRow) :
  score_rows weights df pop_density b w h v = inr res -> In r res ->
  norms_in_unit r /\ risk_score r = weighted_sum weights r /\
  risk_category r = cut (risk_score r) bins labels.
Proof.
  intros Hs Hr. apply In_nth_error in Hr as (i & Hi).
  destruct (score_rows_fields _ _ _ _ _ _ _ _ _ _ Hs Hi)
    as (_ & _ & _ & Hp & _ & Hb & _ & Hw & _ & Hh & _ & Hv & Hscore & Hcat).
  split; [|split; assumption].
  unfold norms_in_unit. rewrite Hp, Hb, Hw, Hh, Hv.
  repeat split;
    try apply min_max_nth_in_unit; try apply factor_norm_in_unit;
    try apply health_norm_in_unit;
    try apply (proj1 (min_max_nth_in_unit _ _));
    try apply (proj2 (min_max_nth_in_unit _ _)).
Qed.

(** X11.  In every row of a result table the five normalised columns lie in
    [0,1], the score is the weighted sum of the row's own normalised
    columns under the engine's weights, and the category is the bin of that
    score. *)
Theorem result_rows_consistent
    (self : RiskMap) (df : DataFrame) (p a : string) (b w h v : option string) :
  zip_code_data self = Some df ->
  has_column df a = true \/ geometry df <> None ->
  has_column df p = true \/ p = a ->
  exists self1 res,
    calculate_risk_scores self p a b w h v = (self1, inr res) /\
    forall r, In r res ->
      norms_in_unit r /\
      risk_score r = weighted_sum (risk_weights self) r /\
      risk_category r = cut (risk_score r) bins labels.
Proof.
  intros Hdf Harea Hpop.
  destruct (proj2 (scoring_conditions df p a) (conj Harea Hpop))
    as (df1 & pop & Hres & Hp).
  destruct (resolve_has_area _ _ _ Hres) as (area & Ha).
  destruct (score_rows_spec (risk_weights self) df1 (density pop area) b w h v)
    as (res & Hs & _).
  do 2 eexists. split; [eapply calculate_risk_scores_ok; eassumption|].
  intros r Hr. eapply score_rows_row; eassumption.
Qed.

Lemma result_rows_consistent_witness :
  exists self1 res,
    calculate_risk_scores_default (init (Some sample_table) None)
      = (self1, inr res) /\
    forall r, In r res ->
      norms_in_unit r /\
      risk_score r = weighted_sum (risk_weights (init (Some sample_table) None)) r /\
      risk_category r = cut (risk_score r) bins labels.
Proof.
  apply (result_rows_consistent (init (Some sample_table) None) sample_table
           "population" "area_km2").
  - reflexivity.
  - left; reflexivity.
  - left; reflexivity.
Defined.

(** ** The range of the composite score *)

Lemma weighted_sum_nonneg (weights : dict) (r : ResultRow) :
  nonneg_weights weights -> norms_in_unit r -> 0 <= weighted_sum weights r.
Proof.
  intros Hw (Hp & Hb & Hwa & Hh & Hv). unfold in_unit in *.
  pose proof (get_nonneg weights "population_density" Hw).
  pose proof (get_nonneg weights "bird_density" Hw).
  pose proof (get_nonneg weights "water_proximity" Hw).
  pose proof (get_nonneg weights "healthcare_capacity" Hw).
  pose proof (get_nonneg weights "vulnerability_index" Hw).
  unfold weighted_sum. nra.
Qed.

(** X12.  With non-negative weights no area gets a negative score, and a row is
    left without a category exactly when its score is 0 or exceeds 1 (the
    sum of five rounded products can end just above 1). *)
Theorem scores_nonnegative_and_binned
    (self : RiskMap) (df : DataFrame) (p a : string) (b w h v : option string) :
  zip_code_data self = Some df ->
  nonneg_weights (risk_weights self) ->
  has_column df a = true \/ geometry df <> None ->
  has_column df p = true \/ p = a ->
  exists self1 res,
    calculate_risk_scores self p a b w h v = (self1, inr res) /\
    forall r, In r res ->
      0 <= risk_score r /\
      (risk_category r = None <-> risk_score r = 0 \/ 1 < risk_score r).
Proof.
  intros Hdf Hw Harea Hpop.
  destruct (proj2 (scoring_conditions df p a) (conj Harea Hpop))
    as (df1 & pop & Hres & Hp).
  destruct (resolve_has_area _ _ _ Hres) as (area & Ha).
  destruct (score_rows_spec (risk_weights self) df1 (density pop area) b w h v)
    as (res & Hs & _).
  do 2 eexists. split; [eapply calculate_risk_scores_ok; eassumption|].
  intros r Hr.
  destruct (score_rows_row _ _ _ _ _ _ _ _ _ Hs Hr) as (Hn & Hscore & Hcat).
  pose proof (weighted_sum_nonneg (risk_weights self) r Hw Hn) as Hb.
  rewrite <- Hscore in Hb. split; [assumption|]. rewrite Hcat.
  destruct (cut_bins (risk_score r)) as (HL & HM & HH & HV & HN). split.
  - intros Hnone.
    destruct (Rle_lt_dec (risk_score r) 0) as [H0|H0]; [left; lra|].
    destruct (Rle_lt_dec (risk_score r) 0.25) as [H1|H1];
      [rewrite HL in Hnone by lra; discriminate|].
    destruct (Rle_lt_dec (risk_score r) 0.5) as [H2|H2];
      [rewrite HM in Hnone by lra; discriminate|].
    destruct (Rle_lt_dec (risk_score r) 0.75) as [H3|H3];
      [rewrite HH in Hnone by lra; discriminate|].
    destruct (Rle_lt_dec (risk_score r) 1) as [H4|H4];
      [rewrite HV in Hnone by lra; discriminate|].
    now right.
  - intros [Hz|Hz]; apply HN; lra.
Qed.

Lemma scores_nonnegative_and_binned_witness :
  exists self1 res,
    calculate_risk_scores_default
      (init (Some sample_table)
         (Some [("bird_density", 3); ("healthcare_capacity", 1)]%string))
      = (self1, inr res) /\
    forall r, In r res ->
      0 <= risk_score r /\
      (risk_category r = None <-> risk_score r = 0 \/ 1 < risk_score r).
Proof.
  apply (scores_nonnegative_and_binned
           (init (Some sample_table)
              (Some [("bird_density", 3); ("healthcare_capacity", 1)]%string))
           sample_table "population" "area_km2").
  - reflexivity.
  - apply init_nonneg_weights. intros x Hx. injection Hx as <-.
    repeat constructor; simpl; lra.
  - left; reflexivity.
  - left; reflexivity.
Defined.

(** ** Factors that are absent, and factors that are constant *)

Lemma factor_absent (df df1 : DataFrame) (a : string) (o : option string) :
  resolve df a = Some df1 -> absent df a o -> factor df1 o = None.
Proof.
  intros Hres Habs. destruct o as [c|]; [|reflexivity]. unfold factor.
  destruct Habs as [-> | [Hc Hne]]; [reflexivity|].
  assert (Hc1 : has_column df1 c = false).
  { unfold resolve in Hres. destruct (has_column df a).
    - now injection Hres as <-.
    - destruct (geometry df); [|discriminate]. injection Hres as <-.
      rewrite has_column_add_column, Hc.
      destruct (String.eqb_spec c a); [contradiction | reflexivity]. }
  rewrite Hc1. now rewrite andb_false_r.
Qed.

Lemma factor_norm_absent (df : DataFrame) (o : option string) (i : nat) :
  factor df o = None ->
  nth i (factor_norm df o) 0 = 0 /\ nth i (health_norm df o) 0 = 0.
Proof.
  intros H. unfold factor_norm, health_norm. rewrite H.
  split; apply nth_repeat.
Qed.

(** X13.  An optional factor that is not used (column name [None] or empty, or
    no such column in the table) leaves no raw column in the result and a
    normalised column of zeros, healthcare included; with none of the four
    in use the score is the normalised density times its weight. *)
Theorem absent_factors_contribute_nothing
    (self : RiskMap) (df : DataFrame) (p a : string) (b w h v : option string) :
  zip_code_data self = Some df ->
  has_column df a = true \/ geometry df <> None ->
  has_column df p = true \/ p = a ->
  exists self1 res,
    calculate_risk_scores self p a b w h v = (self1, inr res) /\
    forall r, In r res ->
      (absent df a b -> bird_density r = None /\ bird_density_norm r = 0) /\
      (absent df a w -> water_proximity r = None /\ water_proximity_norm r = 0) /\
      (absent df a h ->
       healthcare_capacity r = None /\ healthcare_capacity_norm r = 0) /\
      (absent df a v ->
       vulnerability_index r = None /\ vulnerability_index_norm r = 0) /\
      (absent df a b -> absent df a w -> absent df a h -> absent df a v ->
       risk_score r
       = population_density_norm r * get (risk_weights self) "population_density").
Proof.
  intros Hdf Harea Hpop.
  destruct (proj2 (scoring_conditions df p a) (conj Harea Hpop))
    as (df1 & pop & Hres & Hp).
  destruct (resolve_has_area _ _ _ Hres) as (area & Ha).
  destruct (score_rows_spec (risk_weights self) df1 (density pop area) b w h v)
    as (res & Hs & _).
  do 2 eexists. split; [eapply calculate_risk_scores_ok; eassumption|].
  intros r Hr. apply In_nth_error in Hr as (i & Hi).
  destruct (score_rows_fields _ _ _ _ _ _ _ _ _ _ Hs Hi)
    as (_ & _ & _ & _ & Hbr & Hb & Hwr & Hw & Hhr & Hh & Hvr & Hv & Hscore & _).
  assert (Hfb : absent df a b -> bird_density r = None /\ bird_density_norm r = 0).
  { intros Habs. pose proof (factor_absent _ _ _ _ Hres Habs) as Hf.
    rewrite Hbr, Hb, Hf.
    split; [reflexivity | apply (factor_norm_absent _ _ _ Hf)]. }
  assert (Hfw : absent df a w ->
                water_proximity r = None /\ water_proximity_norm r = 0).
  { intros Habs. pose proof (factor_absent _ _ _ _ Hres Habs) as Hf.
    rewrite Hwr, Hw, Hf.
    split; [reflexivity | apply (factor_norm_absent _ _ _ Hf)]. }
  assert (Hfh : absent df a h ->
                healthcare_capacity r = None /\ healthcare_capacity_norm r = 0).
  { intros Habs. pose proof (factor_absent _ _ _ _ Hres Habs) as Hf.
    rewrite Hhr, Hh, Hf.
    split; [reflexivity | apply (factor_norm_absent _ _ _ Hf)]. }
  assert (Hfv : absent df a v ->
                vulnerability_index r = None /\ vulnerability_index_norm r = 0).
  { intros Habs. pose proof (factor_absent _ _ _ _ Hres Habs) as Hf.
    rewrite Hvr, Hv, Hf.
    split; [reflexivity | apply (factor_norm_absent _ _ _ Hf)]. }
  repeat (split; [assumption|]).
  intros H1 H2 H3 H4.
  destruct (Hfb H1) as [_ E1], (Hfw H2) as [_ E2], (Hfh H3) as [_ E3],
           (Hfv H4) as [_ E4].
  rewrite Hscore, E1, E2, E3, E4. ring.
Qed.

Lemma absent_factors_contribute_nothing_witness :
  exists self1 res,
    calculate_risk_scores_default (init (Some sample_two_areas) None)
      = (self1, inr res) /\
    forall r, In r res ->
      (absent sample_two_areas "area_km2" (Some "bird_density"%string) ->
       bird_density r = None /\ bird_density_norm r = 0) /\
      (absent sample_two_areas "area_km2" (Some "water_proximity"%string) ->
       water_proximity r = None /\ water_proximity_norm r = 0) /\
      (absent sample_two_areas "area_km2" (Some "healthcare_capacity"%string) ->
       healthcare_capacity r = None /\ healthcare_capacity_norm r = 0) /\
      (absent sample_two_areas "area_km2" (Some "vulnerability_index"%string) ->
       vulnerability_index r = None /\ vulnerability_index_norm r = 0) /\
      (absent sample_two_areas "area_km2" (Some "bird_density"%string) ->
       absent sample_two_areas "area_km2" (Some "water_proximity"%string) ->
       absent sample_two_areas "area_km2" (Some "healthcare_capacity"%string) ->
       absent sample_two_areas "area_km2" (Some "vulnerability_index"%string) ->
       risk_score r
       = population_density_norm r
         * get (risk_weights (init (Some sample_two_areas) None))
             "population_density").
Proof.
  apply (absent_factors_contribute_nothing (init (Some sample_two_areas) None)
           sample_two_areas "population" "area_km2").
  - reflexivity.
  - left; reflexivity.
  - left; reflexivity.
Defined.

Lemma fillna_constant (k : R) (col : Series) :
  constant_column k col -> pd.fillna 0 col = repeat k (List.length col).
Proof.
  unfold constant_column, pd.fillna.
  induction 1 as [|c col Hc _ IH]; simpl; [reflexivity|].
  rewrite IH. f_equal. destruct c; congruence.
Qed.

Lemma min_max_constant (k : R) (n : nat) : min_max (repeat k n) = repeat 0 n.
Proof.
  pose proof (normalize_min_max (repeat k n)) as H.
  rewrite min_max_unfold, zero_spread_gt0_min_max, fillna_full in H.
  - injection H as <-. unfold of_values. now rewrite length_map, repeat_length.
  - intros x y Hx Hy. unfold of_values in *.
    apply in_map_iff in Hx as (x' & Ex & Hx). apply in_map_iff in Hy as (y' & Ey & Hy).
    apply repeat_spec in Hx, Hy. congruence.
Qed.

(** X14.  A healthcare column that holds the same value for every area (NaN
    counting as 0) puts the full healthcare weight on every area: each row's
    [healthcare_capacity_norm] is 1, not 0 as when the column is absent. *)
Theorem constant_healthcare_counts_fully
    (self : RiskMap) (df : DataFrame) (p a c : string) (b w v : option string)
    (k : R) (col : Series) :
  zip_code_data self = Some df ->
  has_column df a = true \/ geometry df <> None ->
  has_column df p = true \/ p = a ->
  c <> ""%string -> getitem df c = Some col ->
  List.length col = nrows df -> constant_column k col ->
  exists self1 res,
    calculate_risk_scores self p a b w (Some c) v = (self1, inr res) /\
    forall r, In r res ->
      healthcare_capacity r = Some k /\ healthcare_capacity_norm r = 1.
Proof.
  intros Hdf Harea Hpop Hc Hcol Hlen Hk.
  destruct (proj2 (scoring_conditions df p a) (conj Harea Hpop))
    as (df1 & pop & Hres & Hp).
  destruct (resolve_has_area _ _ _ Hres) as (area & Ha).
  destruct (score_rows_spec (risk_weights self) df1 (density pop area)
              b w (Some c) v) as (res & Hs & _).
  do 2 eexists. split; [eapply calculate_risk_scores_ok; eassumption|].
  intros r Hr. apply In_nth_error in Hr as (i & Hi).
  destruct (score_rows_fields _ _ _ _ _ _ _ _ _ _ Hs Hi)
    as (Hlt & _ & _ & _ & _ & _ & _ & _ & Hhr & Hh & _).
  assert (Hf : factor df1 (Some c) = Some (repeat k (nrows df))).
  { unfold factor. pose proof (resolve_getitem _ _ _ c _ Hres Hcol) as Hc1.
    assert (Hhas : has_column df1 c = true)
      by (apply has_column_getitem; congruence).
    destruct (String.eqb_spec c ""); [contradiction|].
    rewrite Hhas, Hc1. simpl. now rewrite (fillna_constant k), Hlen. }
  rewrite (resolve_nrows _ _ _ Hres) in Hlt.
  rewrite Hhr, Hh. unfold health_norm. rewrite Hf. cbn [option_map]. split.
  - now rewrite (nth_repeat_lt k 0 Hlt).
  - rewrite min_max_constant, map_repeat.
    rewrite (nth_repeat_lt (1 - 0) 0 Hlt). lra.
Qed.

Lemma constant_healthcare_counts_fully_witness :
  exists self1 res,
    calculate_risk_scores
      (init (Some {| nrows := 2;
                     columns := [("population"%string, [Some 1000; Some 5000]);
                                 ("area_km2"%string, [Some 1; Some 2]);
                                 ("healthcare_capacity"%string, [Some 0.5; Some 0.5])];
                     geometry := None;
                     to_crs_error := None |}) None)
      "population" "area_km2" None None (Some "healthcare_capacity"%string) None
      = (self1, inr res) /\
    forall r, In r res ->
      healthcare_capacity r = Some 0.5 /\ healthcare_capacity_norm r = 1.
Proof.
  eapply (constant_healthcare_counts_fully _ _ "population" "area_km2"
            "healthcare_capacity" None None None 0.5 [Some 0.5; Some 0.5]).
  - reflexivity.
  - left; reflexivity.
  - left; reflexivity.
  - discriminate.
  - reflexivity.
  - reflexivity.
  - repeat constructor.
Defined.

(** ** Loading a table *)

(** Scores are computed from the table and the weights alone: what the
    engine has cached from earlier calls plays no part. *)
Lemma scoring_ignores_cache (s1 s2 : RiskMap) (p a : string)
    (b w h v : option string) :
  zip_code_data s1 = zip_code_data s2 -> risk_weights s1 = risk_weights s2 ->
  snd (calculate_risk_scores s1 p a b w h v)
  = snd (calculate_risk_scores s2 p a b w h v).
Proof.
  intros Ht Hw. destruct (zip_code_data s2) as [df|] eqn:E.
  - rewrite (calculate_risk_scores_run s1 df), (calculate_risk_scores_run s2 df)
      by assumption.
    now rewrite Hw.
  - unfold calculate_risk_scores. now rewrite Ht, E.
Qed.

(** X15.  Loading a table replaces the engine's table and nothing else: weights
    and cached results stay, so a ranking query made after a load and
    before the next scoring call still answers from the results of the old
    table.  A failed read leaves the engine as it was.  Loading into an
    engine built without a table gives the engine built with that table,
    and scoring after a load depends on the new table and the weights
    only. *)
Theorem load_zip_code_data_keeps_cache
    (self : RiskMap) (gdf : DataFrame) (e : exn) :
  load_zip_code_data self (inl e) = (self, inl e) /\
  (let self' := fst (load_zip_code_data self (inr gdf)) in
   zip_code_data self' = Some gdf /\
   risk_weights self' = risk_weights self /\
   risk_scores self' = risk_scores self /\
   risk_map_gdf self' = risk_map_gdf self /\
   (forall t n, snd (get_high_risk_zips self' t n)
                = snd (get_high_risk_zips self t n)) /\
   (forall other p a b w h v,
      zip_code_data other = Some gdf ->
      risk_weights other = risk_weights self ->
      snd (calculate_risk_scores self' p a b w h v)
      = snd (calculate_risk_scores other p a b w h v))) /\
  (forall weights,
     fst (load_zip_code_data (init None weights) (inr gdf))
     = init (Some gdf) weights).
Proof.
  split; [reflexivity|]. split; [|reflexivity].
  cbv zeta.
  change (fst (load_zip_code_data self (inr gdf)))
    with (with_zip_code_data self gdf).
  repeat (split; [reflexivity|]). split.
  - intros t n. now apply get_high_risk_zips_answer.
  - intros other p a b w h v Ht Hw.
    apply scoring_ignores_cache; [now rewrite Ht | now rewrite Hw].
Qed.

(** ** Ranking queries against each other *)

Lemma filter_length_impl {A} (f g : A -> bool) (l : list A) :
  (forall x, f x = true -> g x = true) ->
  (List.length (filter f l) <= List.length (filter g l))%nat.
Proof.
  intros H. induction l as [|x l IH]; simpl; [lia|].
  destruct (f x) eqn:Ef.
  - rewrite (H x Ef). simpl. lia.
  - destruct (g x); simpl; lia.
Qed.

(** X18.  Raising the threshold can only remove rows: the rows returned for the
    higher threshold are those of the lower one that reach it.  A threshold
    below every score returns the whole table, one above every score
    returns nothing. *)
Theorem raising_threshold_shrinks_result
    (self : RiskMap) (scores : Results) (t1 t2 : R) :
  risk_scores self = Some scores -> t1 <= t2 ->
  exists r1 r2,
    get_high_risk_zips self t1 None = (self, inr r1) /\
    get_high_risk_zips self t2 None = (self, inr r2) /\
    (forall r, In r r2 <-> In r r1 /\ t2 <= risk_score r) /\
    (List.length r2 <= List.length r1)%nat /\
    ((forall r, In r scores -> t1 <= risk_score r) -> Permutation r1 scores) /\
    ((forall r, In r scores -> risk_score r < t2) -> r2 = []).
Proof.
  intros H Ht. unfold get_high_risk_zips. rewrite H. cbn [truthy].
  do 2 eexists. split; [reflexivity|]. split; [reflexivity|].
  split; [|split; [|split]].
  - intros r. rewrite !sort_values_desc_In, !filter_In, !Rge_bool_true.
    split; [intros [Hin Hr]; repeat split; auto; lra | tauto].
  - rewrite !(Permutation_length (sort_values_desc_perm _)).
    apply filter_length_impl. intros x Hx.
    apply Rge_bool_true in Hx. apply Rge_bool_true. lra.
  - intros Hall. rewrite sort_values_desc_perm.
    rewrite forallb_filter_id; [reflexivity|].
    apply forallb_forall. intros r Hr. apply Rge_bool_true. auto.
  - intros Hnone.
    assert (E : filter (fun r => Rge_bool (risk_score r) t2) scores = []).
    { clear H. induction scores as [|r l IH]; simpl; [reflexivity|].
      rewrite Rge_bool_false by (apply Hnone; now left).
      apply IH. intros; apply Hnone; now right. }
    now rewrite E.
Qed.

Lemma raising_threshold_shrinks_result_witness :
  exists r1 r2,
    get_high_risk_zips sample_scored 0.5 None = (sample_scored, inr r1) /\
    get_high_risk_zips sample_scored 0.85 None = (sample_scored, inr r2) /\
    (forall r, In r r2 <-> In r r1 /\ 0.85 <= risk_score r) /\
    (List.length r2 <= List.length r1)%nat /\
    ((forall r, In r [sample_row 0 0.8; sample_row 1 0.9] -> 0.5 <= risk_score r) ->
     Permutation r1 [sample_row 0 0.8; sample_row 1 0.9]) /\
    ((forall r, In r [sample_row 0 0.8; sample_row 1 0.9] -> risk_score r < 0.85) ->
     r2 = []).
Proof.
  apply (raising_threshold_shrinks_result sample_scored
           [sample_row 0 0.8; sample_row 1 0.9] 0.5 0.85).
  - reflexivity.
  - lra.
Defined.

Lemma sort_values_desc_sorted_id (l : Results) :
  StronglySorted desc l -> sort_values_desc l = l.
Proof.
  induction 1 as [|x l Hs IH Hx]; simpl; [reflexivity|].
  rewrite IH. destruct l as [|y l]; simpl; [reflexivity|].
  inversion Hx as [|? ? Hy _]; subst. unfold desc in Hy.
  destruct (Rlt_dec (risk_score x) (risk_score y)); [lra | reflexivity].
Qed.

Lemma nlargest_sorted (k : Z) (l : Results) :
  sort_values_desc (nlargest k l) = nlargest k l.
Proof.
  apply sort_values_desc_sorted_id. unfold nlargest.
  apply sorted_firstn, sort_values_desc_sorted.
Qed.

(** X19.  Top lists are nested: for [0 < k <= k'] the scores returned for
    [top_n = k] are the first [k] of the scores returned for [top_n = k'];
    and a [top_n] of at least the number of rows returns the whole table. *)
Theorem top_n_lists_nested
    (self : RiskMap) (scores : Results) (t : R) (k k' : Z) :
  risk_scores self = Some scores -> (0 < k <= k')%Z ->
  exists res res',
    get_high_risk_zips self t (Some k) = (self, inr res) /\
    get_high_risk_zips self t (Some k') = (self, inr res') /\
    map risk_score res = firstn (Z.to_nat k) (map risk_score res') /\
    ((Z.of_nat (List.length scores) <= k)%Z -> Permutation res scores).
Proof.
  intros H Hk. unfold get_high_risk_zips. rewrite H.
  assert (Tk : truthy (Some k) = true)
    by (simpl; destruct (Z.eqb_spec k 0); [lia | reflexivity]).
  assert (Tk' : truthy (Some k') = true)
    by (simpl; destruct (Z.eqb_spec k' 0); [lia | reflexivity]).
  rewrite Tk, Tk', !nlargest_sorted.
  do 2 eexists. split; [reflexivity|]. split; [reflexivity|]. split.
  - unfold nlargest. rewrite firstn_map, firstn_firstn.
    now replace (Nat.min (Z.to_nat k) (Z.to_nat k')) with (Z.to_nat k) by lia.
  - intros Hall. unfold nlargest. rewrite firstn_all2.
    + apply sort_values_desc_perm.
    + rewrite (Permutation_length (sort_values_desc_perm scores)). lia.
Qed.

Lemma top_n_lists_nested_witness :
  exists res res',
    get_high_risk_zips sample_scored 0.7 (Some 1%Z) = (sample_scored, inr res) /\
    get_high_risk_zips sample_scored 0.7 (Some 10%Z) = (sample_scored, inr res') /\
    map risk_score res = firstn (Z.to_nat 1) (map risk_score res') /\
    ((Z.of_nat (List.length [sample_row 0 0.8; sample_row 1 0.9]) <= 1)%Z ->
     Permutation res [sample_row 0 0.8; sample_row 1 0.9]).
Proof.
  apply (top_n_lists_nested sample_scored [sample_row 0 0.8; sample_row 1 0.9]
           0.7 1 10).
  - reflexivity.
  - lia.
Defined.

(** X20.  The example scripts' sequence: build the engine on a table with a
    population and an area column, score it with the default column names,
    ask for the top [k].  No step fails, and the answer is [k] rows of the
    scored table (all of them when the table is smaller), in descending
    order of score. *)
Theorem score_then_top_n
    (data : DataFrame) (weights : option dict) (threshold : R) (k : Z) :
  has_column data "population" = true ->
  has_column data "area_km2" = true ->
  (0 < k)%Z ->
  exists rm1 scores top,
    calculate_risk_scores_default (init (Some data) weights) = (rm1, inr scores) /\
    get_high_risk_zips rm1 threshold (Some k) = (rm1, inr top) /\
    List.length top = Nat.min (Z.to_nat k) (nrows data) /\
    StronglySorted desc top /\
    (forall r, In r top -> In r scores).
Proof.
  intros Hp Ha Hk. unfold calculate_risk_scores_default.
  destruct (proj2 (scoring_conditions data "population" "area_km2")
              (conj (or_introl Ha) (or_introl Hp)))
    as (df1 & pop & Hres & Hpop).
  destruct (resolve_has_area _ _ _ Hres) as (area & Harea).
  set (self := init (Some data) weights).
  destruct (score_rows_spec (risk_weights self) df1 (density pop area)
              (Some "bird_density"%string) (Some "water_proximity"%string)
              (Some "healthcare_capacity"%string)
              (Some "vulnerability_index"%string))
    as (res & Hs & Hlen & _).
  rewrite (resolve_nrows _ _ _ Hres) in Hlen.
  exists {| zip_code_data := Some df1; risk_scores := Some res;
            risk_map_gdf := Some (df1, res); risk_weights := risk_weights self |},
         res, (nlargest k res).
  split; [now apply (calculate_risk_scores_ok self data df1 pop area)|].
  assert (Tk : truthy (Some k) = true)
    by (simpl; destruct (Z.eqb_spec k 0); [lia | reflexivity]).
  split; [|split; [|split]].
  - unfold get_high_risk_zips. cbn [risk_scores]. now rewrite Tk, nlargest_sorted.
  - now rewrite nlargest_length, Hlen.
  - unfold nlargest. apply sorted_firstn, sort_values_desc_sorted.
  - intros r Hr. unfold nlargest in Hr. apply firstn_incl in Hr.
    now apply (proj1 (sort_values_desc_In _ _)) in Hr.
Qed.

Lemma score_then_top_n_witness :
  exists rm1 scores top,
    calculate_risk_scores_default
      (init (Some sample_table)
         (Some [("population_density", 0.25); ("bird_density", 0.45);
                ("water_proximity", 0.20); ("healthcare_capacity", 0.05);
                ("vulnerability_index", 0.05)]%string))
      = (rm1, inr scores) /\
    get_high_risk_zips rm1 0.7 (Some 10%Z) = (rm1, inr top) /\
    List.length top = Nat.min (Z.to_nat 10) (nrows sample_table) /\
    StronglySorted desc top /\
    (forall r, In r top -> In r scores).
Proof.
  apply (score_then_top_n sample_table
           (Some [("population_density", 0.25); ("bird_density", 0.45);
                  ("water_proximity", 0.20); ("healthcare_capacity", 0.05);
                  ("vulnerability_index", 0.05)]%string) 0.7 10).
  - reflexivity.
  - reflexivity.
  - lia.
Defined.
